(** * dustysn: the dust-emission inference engine of [dustysn/model.py]

    A shallow embedding of the forward model, the censored likelihood, the
    prior, the posterior, the walker initialisation, the sigma-clipping
    repair step and the result summary.

    Numbers.  A Python float is idealised as a real number; the one
    non-finite value the code produces on purpose, [-np.inf], is adjoined
    ([NegInf]).  Rounding, overflow and NaN are not modelled.  Functions of
    numpy, scipy and astropy that the code calls ([scipy.special.erf],
    [np.percentile], [np.median], [np.std], astropy's [BlackBody]) and the
    helpers of [dustysn/utils.py] are variables of the sections that use
    them, so every theorem holds for whatever those functions compute.

    Exceptions.  A function that can raise returns a [result]. *)

From Stdlib Require Import Reals Lra Lia ZArith String Bool List.
Import ListNotations.
Open Scope R_scope.

(* ================================================================== *)
(** * Prelude: exceptions, floats with minus infinity, numpy helpers    *)
(* ================================================================== *)

Inductive exn : Type :=
| ValueError
| IndexError
| TypeError
| NameError.

Inductive result (A : Type) : Type :=
| Ok (a : A)
| Raise (e : exn).
Arguments Ok {A} a.
Arguments Raise {A} e.

Definition bind {A B : Type} (m : result A) (k : A -> result B) : result B :=
  match m with
  | Ok a => k a
  | Raise e => Raise e
  end.

Notation "x <- m ;; k" := (bind m (fun x => k))
  (at level 61, m at next level, right associativity).
Notation "' pat <- m ;; k" :=
  (bind m (fun x => match x with pat => k end))
  (at level 61, pat pattern, m at next level, right associativity).

(** A float that is a real number or minus infinity. *)
Inductive float : Type :=
| Finite (r : R)
| NegInf.

(** [np.isfinite] *)
Definition isfinite (x : float) : bool :=
  match x with
  | Finite _ => true
  | NegInf => false
  end.

(** Float addition: minus infinity absorbs. *)
Definition fadd (x y : float) : float :=
  match x, y with
  | Finite a, Finite b => Finite (a + b)
  | _, _ => NegInf
  end.

(** Float subtraction of a finite quantity, as in [ln_like -= v]. *)
Definition fsub (x : float) (v : R) : float :=
  match x with
  | Finite a => Finite (a - v)
  | NegInf => NegInf
  end.

(** The order of floats: minus infinity is below every real. *)
Definition fle (x y : float) : Prop :=
  match x, y with
  | NegInf, _ => True
  | Finite _, NegInf => False
  | Finite a, Finite b => a <= b
  end.

Definition flt (x y : float) : Prop :=
  match x, y with
  | NegInf, NegInf => False
  | NegInf, Finite _ => True
  | Finite _, NegInf => False
  | Finite a, Finite b => a < b
  end.

(** Comparisons of reals as booleans. *)
Definition Rltb (x y : R) : bool := if Rlt_dec x y then true else false.
Definition Rgtb (x y : R) : bool := Rltb y x.

(** [np.sum] *)
Definition np_sum (l : list R) : R := fold_right Rplus 0 l.

(** [np.any] *)
Definition np_any (l : list bool) : bool := existsb (fun b => b) l.

(** [np.where(mask)[0]]: the indices at which the mask is true. *)
Fixpoint where_from (i : nat) (mask : list bool) : list nat :=
  match mask with
  | [] => []
  | b :: rest => (if b then [i] else []) ++ where_from (S i) rest
  end.

Definition np_where (mask : list bool) : list nat := where_from 0 mask.

(** [a[mask]]: boolean-mask indexing; numpy raises [IndexError] when the
    mask and the array differ in length. *)
Fixpoint mask_index {A : Type} (a : list A) (mask : list bool) : result (list A) :=
  match a, mask with
  | [], [] => Ok []
  | x :: a', b :: mask' =>
      rest <- mask_index a' mask' ;;
      Ok (if b then x :: rest else rest)
  | _, _ => Raise IndexError
  end.

(** [a[:, d]]: column [d] of a two-dimensional array. *)
Definition column (a : list (list R)) (d : nat) : list R :=
  map (fun row => nth d row 0) a.

(** [a[start:]], for a start index of either sign. *)
Definition slice_from {A : Type} (start : Z) (a : list A) : list A :=
  if (0 <=? start)%Z then skipn (Z.to_nat start) a
  else skipn (Z.to_nat (Z.of_nat (length a) + start)) a.

(** [int(x)]: truncation towards zero. *)
Definition int_of_float (x : R) : Z :=
  if Rle_dec 0 x then Int_part x else (- Int_part (- x))%Z.

(** [a[j]] for a non-negative index. *)
Definition index {A : Type} (a : list A) (j : nat) : result A :=
  match nth_error a j with
  | Some x => Ok x
  | None => Raise IndexError
  end.

(* ================================================================== *)
(** * The prior                                                        *)
(* ================================================================== *)

(** The module-level dictionary [priors]: one (low, high) pair per key. *)
Record prior_table : Type := {
  log_dust_mass_cold : R * R;
  temp_cold : R * R;
  log_dust_mass_hot : R * R;
  temperature_hot : R * R
}.

Definition priors : prior_table := {|
  log_dust_mass_cold := (-6, 1);
  temp_cold := (20, 2000);
  log_dust_mass_hot := (-8, 1);
  temperature_hot := (20, 3000)
|}.

(** The chained comparison [lo < x < hi]. *)
Definition between (bounds : R * R) (x : R) : bool :=
  Rltb (fst bounds) x && Rltb x (snd bounds).

(** [log_prior(theta, n_components)] *)
Definition log_prior (theta : list R) (n_components : Z) : result float :=
  if (n_components =? 1)%Z then
    match theta with
    | [m_cold; t_cold] =>
        if between (log_dust_mass_cold priors) m_cold &&
           between (temp_cold priors) t_cold
        then Ok (Finite 0)
        else Ok NegInf
    | _ => Raise ValueError
    end
  else if (n_components =? 2)%Z then
    match theta with
    | [m_cold; t_cold; m_hot; t_hot] =>
        if between (log_dust_mass_cold priors) m_cold &&
           between (temp_cold priors) t_cold &&
           between (log_dust_mass_hot priors) m_hot &&
           between (temperature_hot priors) t_hot
        then
          if Rgtb t_hot t_cold then Ok (Finite 0) else Ok NegInf
        else Ok NegInf
    | _ => Raise ValueError
    end
  else Raise ValueError.

(* ================================================================== *)
(** * The physical model                                               *)
(* ================================================================== *)

(** The units that occur as luminosities in the code; [other_unit] stands
    for any unit equivalent to neither luminosity density. *)
Inductive lum_unit : Type :=
| erg_s_Hz
| erg_s_AA
| other_unit.

(** An astropy [Quantity] holding a luminosity array. *)
Record Quantity : Type := {
  value : list R;
  unit : lum_unit
}.

(** A flux density before conversion to the requested output unit. *)
Inductive flux_unit : Type :=
| erg_s_cm2_Hz
| erg_s_cm2_AA.

(** Constants of astropy's unit conversions. *)
Definition Msun_g : R := 1988409870698051 * 10 ^ 18.      (* u.Msun in g *)
Definition c_AA_s : R := 299792458 * 10 ^ 10.             (* c in AA / s *)
Definition AA_per_micron : R := 10 ^ 4.
Definition Jy_per_cgs : R := 10 ^ 23.    (* 1 erg/s/cm^2/Hz in Jy *)

(** Elementwise operations on arrays of equal length. *)
Definition map2 {A B C : Type} (f : A -> B -> C) (a : list A) (b : list B) : list C :=
  map (fun p => f (fst p) (snd p)) (combine a b).

Definition vadd (a b : list R) : list R := map2 Rplus a b.

(** [u.spectral_density(wave)]: per-frequency to per-wavelength and back,
    at a wavelength given in microns. *)
Definition nu_to_lambda (wave x : R) : R :=
  x * c_AA_s / (wave * AA_per_micron) ^ 2.

Definition lambda_to_nu (wave x : R) : R :=
  x * (wave * AA_per_micron) ^ 2 / c_AA_s.

(** [flux_in.to(unit, equivalencies=u.spectral_density(obs_wave))] for the
    three output units of [calc_flux]. *)
Definition to_output (output_units : string) (obs_wave : list R)
    (flux_in : list R * flux_unit) : result (list R) :=
  let '(v, from) := flux_in in
  let per_nu :=
    match from with
    | erg_s_cm2_Hz => v
    | erg_s_cm2_AA => map2 lambda_to_nu obs_wave v
    end in
  let per_lambda :=
    match from with
    | erg_s_cm2_Hz => map2 nu_to_lambda obs_wave v
    | erg_s_cm2_AA => v
    end in
  if String.eqb output_units "Jy" then Ok (map (fun x => x * Jy_per_cgs) per_nu)
  else if String.eqb output_units "nu" then Ok per_nu
  else if String.eqb output_units "lambda" then Ok per_lambda
  else Raise ValueError.

(** The flux density of lines 131-137, before the unit conversion. *)
Definition flux_in (luminosity : Quantity) (distance redshift : R)
    : result (list R * flux_unit) :=
  match unit luminosity with
  | erg_s_Hz =>
      Ok (map (fun l => l / (4 * PI * distance ^ 2) * (1 + redshift))
              (value luminosity), erg_s_cm2_Hz)
  | erg_s_AA =>
      Ok (map (fun l => l / (4 * PI * distance ^ 2) / (1 + redshift))
              (value luminosity), erg_s_cm2_AA)
  | other_unit => Raise ValueError
  end.

(** [calc_flux(rest_wave, luminosity, distance, redshift, output_units)] *)
Definition calc_flux (rest_wave : list R) (luminosity : Quantity)
    (distance redshift : R) (output_units : string) : result (list R) :=
  f <- flux_in luminosity distance redshift ;;
  let obs_wave := map (fun w => w * (1 + redshift)) rest_wave in
  to_output output_units obs_wave f.

Section PhysicalModel.

(** astropy's [BlackBody(temperature)(wave)]: spectral radiance in
    erg/s/cm^2/sr/Hz at a temperature in K and a wavelength in microns. *)
Variable BlackBody : R -> R -> R.

(** The helpers of [dustysn/utils.py]. *)
Variable calc_distance : R -> R.
Variable import_coefficients : R -> string -> bool -> list R * list R.
Variable interpolate_kappa : list R -> list R -> list R -> list R.
Variable calc_filter_flux : list R -> list R -> list R -> list R -> R.

(** [calc_luminosity(rest_wave, kappa_interp, dust_mass, temperature,
    output_units)] *)
Definition calc_luminosity (rest_wave kappa_interp : list R)
    (dust_mass temperature : R) (output_units : string) : result Quantity :=
  if negb (length rest_wave =? length kappa_interp)%nat then Raise ValueError
  else
    let bb_radiance := map (BlackBody temperature) rest_wave in
    let luminosity_in :=
      map2 (fun k b => dust_mass * k * b * (4 * PI)) kappa_interp bb_radiance in
    let per_nu := map (fun l => l * Msun_g) luminosity_in in
    if String.eqb output_units "nu" then
      Ok {| value := per_nu; unit := erg_s_Hz |}
    else if String.eqb output_units "lambda" then
      Ok {| value := map2 nu_to_lambda rest_wave per_nu; unit := erg_s_AA |}
    else Raise ValueError.

(** [calc_model_flux(obs_wave, dust_mass, temperature, redshift, ...)] *)
Definition calc_model_flux (obs_wave : list R) (dust_mass temperature redshift : R)
    (distance : option R) (wave_kappa kappa kappa_interp : option (list R))
    (grain_size : R) (composition : string) (interp_grain : bool)
    : result (list R) :=
  let rest_wave := map (fun w => w / (1 + redshift)) obs_wave in
  let kappa_interp :=
    match kappa_interp with
    | Some k => k
    | None =>
        let '(wk, k) :=
          match wave_kappa, kappa with
          | Some wk, Some k => (wk, k)
          | _, _ => import_coefficients grain_size composition interp_grain
          end in
        interpolate_kappa wk k rest_wave
    end in
  let distance :=
    match distance with
    | Some d => d
    | None => calc_distance redshift
    end in
  luminosity <- calc_luminosity rest_wave kappa_interp dust_mass temperature "nu" ;;
  calc_flux rest_wave luminosity distance redshift "Jy".

(** [flux_model[i] = v] on an array of fixed length. *)
Definition set_item (a : list R) (i : nat) (v : R) : result (list R) :=
  if (i <? length a)%nat then Ok (firstn i a ++ v :: skipn (S i) a)
  else Raise IndexError.

(** The loop over the filters of [model_flux]. *)
Fixpoint filter_loop (obs_wave flux : list R) (i : nat)
    (wave_filters : list (list R)) (trans_filters : list (list R))
    (flux_model : list R) : result (list R) :=
  match wave_filters with
  | [] => Ok flux_model
  | obs_wave_filter :: rest =>
      obs_trans_filter <- index trans_filters i ;;
      let output_flux :=
        calc_filter_flux obs_wave flux obs_wave_filter obs_trans_filter in
      flux_model' <- set_item flux_model i output_flux ;;
      filter_loop obs_wave flux (S i) rest trans_filters flux_model'
  end.

(** [model_flux(theta, obs_wave, obs_flux, kappa_interp, redshift,
    distance, n_components, obs_wave_filters, obs_trans_filters)] *)
Definition model_flux (theta obs_wave obs_flux kappa_interp : list R)
    (redshift distance : R) (n_components : Z)
    (obs_wave_filters obs_trans_filters : option (list (list R)))
    : result (list R) :=
  let one (dust_mass temperature : R) :=
    calc_model_flux obs_wave dust_mass temperature redshift (Some distance)
      None None (Some kappa_interp) (1 / 10) "carbon" false in
  flux <-
    (if (n_components =? 1)%Z then
       match theta with
       | [lm_cold; t_cold] => one (Rpower 10 lm_cold) t_cold
       | _ => Raise ValueError
       end
     else if (n_components =? 2)%Z then
       match theta with
       | [lm_cold; t_cold; lm_hot; t_hot] =>
           flux1 <- one (Rpower 10 lm_cold) t_cold ;;
           flux2 <- one (Rpower 10 lm_hot) t_hot ;;
           Ok (vadd flux1 flux2)
       | _ => Raise ValueError
       end
     else Raise ValueError) ;;
  match obs_wave_filters with
  | Some wave_filters =>
      match obs_trans_filters with
      | Some trans_filters =>
          filter_loop obs_wave flux 0 wave_filters trans_filters
            (repeat 0 (length obs_flux))
      | None =>
          match wave_filters with
          | [] => Ok (repeat 0 (length obs_flux))
          | _ => Raise TypeError
          end
      end
  | None => Ok flux
  end.

End PhysicalModel.

(* ================================================================== *)
(** * The censored likelihood and the posterior                        *)
(* ================================================================== *)

Section Posterior.

Variable BlackBody : R -> R -> R.
Variable calc_distance : R -> R.
Variable import_coefficients : R -> string -> bool -> list R * list R.
Variable interpolate_kappa : list R -> list R -> list R -> list R.
Variable calc_filter_flux : list R -> list R -> list R -> list R -> R.

(** [scipy.special.erf] *)
Variable sp_erf : R -> R.

(** The probability of one upper limit, lines 340-344. *)
Definition limit_prob (model obs err : R) : R :=
  let z := (model - obs) / err in
  (1 / 2) * (1 + sp_erf (z / sqrt 2)).

(** [np.log(prob) if prob > 0 else -np.inf] *)
Definition limit_term (prob : R) : float :=
  if Rgtb prob 0 then Finite (ln prob) else NegInf.

(** The loop over the upper limits, lines 338-346. *)
Fixpoint limit_loop (flux_model obs_flux obs_flux_err : list R)
    (js : list nat) (ln_like : float) : result float :=
  match js with
  | [] => Ok ln_like
  | j :: rest =>
      m <- index flux_model j ;;
      o <- index obs_flux j ;;
      e <- index obs_flux_err j ;;
      let prob := limit_prob m o e in
      limit_loop flux_model obs_flux obs_flux_err rest
        (fadd ln_like (limit_term prob))
  end.

(** The detection block, lines 327-333. *)
Definition detection_block (flux_model obs_flux obs_flux_err : list R)
    (is_detection : list bool) (ln_like : float) : result float :=
  o <- mask_index obs_flux is_detection ;;
  m <- mask_index flux_model is_detection ;;
  let det_error := map2 Rminus o m in
  e <- mask_index obs_flux_err is_detection ;;
  let det_weight := map (fun s => 1 / s ^ 2) e in
  let ln_like :=
    fsub ln_like
      ((1 / 2) * np_sum (map2 (fun w d => w * d ^ 2) det_weight det_error)) in
  Ok (fsub ln_like
        ((1 / 2) * np_sum (map (fun s => ln (2 * PI * s ^ 2)) e))).

(** Lines 323-348: the likelihood of a model flux already computed. *)
Definition likelihood_of_flux (flux_model obs_flux obs_flux_err : list R)
    (obs_limits : list bool) : result float :=
  let ln_like := Finite 0 in
  let is_detection := map negb obs_limits in
  ln_like <-
    (if np_any is_detection
     then detection_block flux_model obs_flux obs_flux_err is_detection ln_like
     else Ok ln_like) ;;
  if np_any obs_limits
  then limit_loop flux_model obs_flux obs_flux_err (np_where obs_limits) ln_like
  else Ok ln_like.

(** [log_likelihood(theta, obs_wave, obs_flux, obs_flux_err, obs_limits,
    kappa_interp, redshift, distance, n_components, obs_wave_filters,
    obs_trans_filters)] *)
Definition log_likelihood (theta obs_wave obs_flux obs_flux_err : list R)
    (obs_limits : list bool) (kappa_interp : list R) (redshift distance : R)
    (n_components : Z) (obs_wave_filters obs_trans_filters : option (list (list R)))
    : result float :=
  flux_model <-
    model_flux BlackBody calc_distance import_coefficients interpolate_kappa
      calc_filter_flux theta obs_wave obs_flux kappa_interp redshift distance
      n_components obs_wave_filters obs_trans_filters ;;
  likelihood_of_flux flux_model obs_flux obs_flux_err obs_limits.

(** [log_probability(theta, obs_wave, obs_flux, obs_flux_err, obs_limits,
    kappa_interp, redshift, distance, n_components, obs_wave_filters,
    obs_trans_filters)] *)
Definition log_probability (theta obs_wave obs_flux obs_flux_err : list R)
    (obs_limits : list bool) (kappa_interp : list R) (redshift distance : R)
    (n_components : Z) (obs_wave_filters obs_trans_filters : option (list (list R)))
    : result float :=
  lp <- log_prior theta n_components ;;
  if negb (isfinite lp) then Ok NegInf
  else
    ll <- log_likelihood theta obs_wave obs_flux obs_flux_err obs_limits
            kappa_interp redshift distance n_components
            obs_wave_filters obs_trans_filters ;;
    Ok (fadd lp ll).

End Posterior.

(* ================================================================== *)
(** * The initial walker positions of [fit_dust_model]                 *)
(* ================================================================== *)

Section Initialisation.

(** The state of numpy's global random generator. *)
Variable rng : Type.

(** [np.random.uniform(low, high, n)] *)
Variable random_uniform : rng -> R -> R -> nat -> list R * rng.

(** [create_prior(n_walkers, initial_pos)], a closure over
    [n_components]. *)
Definition create_prior (n_components : Z) (n_walkers : nat)
    (initial_pos : prior_table) (g : rng) : result (list (list R) * rng) :=
  let draw (bounds : R * R) (g : rng) :=
    random_uniform g (fst bounds) (snd bounds) n_walkers in
  if (n_components =? 1)%Z then
    let '(m_cold, g) := draw (log_dust_mass_cold initial_pos) g in
    let '(t_cold, g) := draw (temp_cold initial_pos) g in
    Ok (map2 (fun m t => [m; t]) m_cold t_cold, g)
  else if (n_components =? 2)%Z then
    let '(m_cold, g) := draw (log_dust_mass_cold initial_pos) g in
    let '(t_cold, g) := draw (temp_cold initial_pos) g in
    let '(m_hot, g) := draw (log_dust_mass_hot initial_pos) g in
    let '(t_hot, g) := draw (temperature_hot initial_pos) g in
    Ok (map2 (fun c h => c ++ h)
          (map2 (fun m t => [m; t]) m_cold t_cold)
          (map2 (fun m t => [m; t]) m_hot t_hot), g)
  else Raise ValueError.

(** [[np.isfinite(log_prior(i, n_components)) for i in pos_in]] *)
Fixpoint prior_mask (pos_in : list (list R)) (n_components : Z)
    : result (list bool) :=
  match pos_in with
  | [] => Ok []
  | i :: rest =>
      lp <- log_prior i n_components ;;
      mask <- prior_mask rest n_components ;;
      Ok (isfinite lp :: mask)
  end.

(** The [while] loop of lines 900-902; [None] when the fuel runs out. *)
Fixpoint fill_loop (fuel : nat) (pos_in : list (list R)) (n_components : Z)
    (n_walkers : nat) (pos_out : list (list R))
    : option (result (list (list R))) :=
  if (length pos_out <? n_walkers)%nat then
    match fuel with
    | O => None
    | S fuel' =>
        match (mask <- prior_mask pos_in n_components ;;
               mask_index pos_in mask) with
        | Ok pos =>
            fill_loop fuel' pos_in n_components n_walkers (pos_out ++ pos)
        | Raise e => Some (Raise e)
        end
    end
  else Some (Ok pos_out).

(** Lines 899-908: the positions handed to the sampler, from the one draw
    [pos_in]. *)
Definition assemble_positions (fuel : nat) (pos_in : list (list R))
    (n_components : Z) (n_walkers : nat) : option (result (list (list R))) :=
  let pos_out := firstn 1 pos_in in
  match fill_loop fuel pos_in n_components n_walkers pos_out with
  | Some (Ok pos_out) =>
      if negb (length pos_out =? n_walkers)%nat
      then Some (Ok (firstn n_walkers (skipn 1 pos_out)))
      else Some (Ok pos_out)
  | other => other
  end.

(** Lines 894-908. *)
Definition initial_positions (fuel : nat) (n_components : Z) (n_walkers : nat)
    (initial_pos : option prior_table) (g : rng)
    : option (result (list (list R))) :=
  let initial_pos :=
    match initial_pos with
    | Some p => p
    | None => priors
    end in
  match create_prior n_components n_walkers initial_pos g with
  | Ok (pos_in, _) => assemble_positions fuel pos_in n_components n_walkers
  | Raise e => Some (Raise e)
  end.

End Initialisation.

(* ================================================================== *)
(** * Sigma clipping between the runs of the sampler                   *)
(* ================================================================== *)

Section SigmaClipping.

Variable rng : Type.

(** [np.random.choice(a)] picks a position in a non-empty array; the
    variable gives the position chosen for an array of a given length. *)
Variable choice_position : rng -> nat -> nat * rng.

(** [np.random.normal(loc, scale)] *)
Variable random_normal : rng -> R -> R -> R * rng.

(** [np.median] and [np.std] of a one-dimensional array. *)
Variable np_median : list R -> R.
Variable np_std : list R -> R.

(** The emcee sampler: its state, [run_mcmc] and the last step of its
    chain, [sampler.chain[:, -1, :]], whose entries may be non-finite
    ([None]). *)
Variable sampler : Type.
Variable run_mcmc : sampler -> list (list R) -> Z -> sampler.
Variable chain_last : sampler -> list (list (option R)).

(** [np.random.choice(a)]: raises [ValueError] on an empty array. *)
Definition random_choice (g : rng) (a : list nat) : result (nat * rng) :=
  match a with
  | [] => Raise ValueError
  | x :: _ =>
      let '(k, g) := choice_position g (length a) in
      Ok (nth (k mod length a) a x, g)
  end.

(** [np.random.normal(0, scale, n_dim)] *)
Fixpoint normal_vector (g : rng) (scale : R) (n_dim : nat) : list R * rng :=
  match n_dim with
  | O => ([], g)
  | S n =>
      let '(x, g) := random_normal g 0 scale in
      let '(xs, g) := normal_vector g scale n in
      (x :: xs, g)
  end.

(** A row all of whose entries are finite, as reals. *)
Fixpoint finite_row (row : list (option R)) : option (list R) :=
  match row with
  | [] => Some []
  | Some x :: rest =>
      match finite_row rest with
      | Some xs => Some (x :: xs)
      | None => None
      end
  | None :: _ => None
  end.

(** [np.any(~np.isfinite(last_pos), axis=1)] *)
Definition invalid_mask (last_pos : list (list (option R))) : list bool :=
  map (fun row => match finite_row row with Some _ => false | None => true end)
      last_pos.

(** Lines 525-534: every walker with a non-finite entry is overwritten by
    a finite walker plus noise.  The finite walkers are never written, so
    [source] keeps their rows as they were. *)
Fixpoint replace_invalid (g : rng) (source : list (list (option R)))
    (valid_indices : list nat) (n_dim : nat) (rows : list (list (option R)))
    : result (list (list R) * rng) :=
  match rows with
  | [] => Ok ([], g)
  | row :: rest =>
      match finite_row row with
      | Some xs =>
          '(others, g) <- replace_invalid g source valid_indices n_dim rest ;;
          Ok (xs :: others, g)
      | None =>
          '(valid_idx, g) <- random_choice g valid_indices ;;
          let '(noise, g) := normal_vector g (1 / 10 ^ 4) n_dim in
          let base :=
            match finite_row (nth valid_idx source []) with
            | Some xs => xs
            | None => []
            end in
          '(others, g) <- replace_invalid g source valid_indices n_dim rest ;;
          Ok (vadd base noise :: others, g)
      end
  end.

(** Line 544: [np.all(np.abs(last_pos - medians) < sigma_clip * stds,
    axis=1)] *)
Definition valid_walkers (last_pos : list (list R)) (medians stds : list R)
    (sigma_clip : R) : list bool :=
  map (fun row =>
         forallb (fun b => b)
           (map2 (fun x ms => Rltb (Rabs (x - fst ms)) (sigma_clip * snd ms))
                 row (combine medians stds)))
      last_pos.

(** Lines 560-562: the new row of an outlier. *)
Fixpoint resample_row (g : rng) (base stds : list R) (sigma_clip : R)
    : list R * rng :=
  match base, stds with
  | x :: base', s :: stds' =>
      let '(n, g) := random_normal g 0 (s / sigma_clip) in
      let '(xs, g) := resample_row g base' stds' sigma_clip in
      (x + n :: xs, g)
  | _, _ => ([], g)
  end.

(** Lines 556-562: the loop over the outliers. *)
Fixpoint replace_outliers (g : rng) (last_pos : list (list R))
    (valid_indices : list nat) (stds : list R) (sigma_clip : R)
    (flags : list bool) (rows : list (list R)) : result (list (list R) * rng) :=
  match rows, flags with
  | row :: rest, valid :: flags' =>
      if valid then
        '(others, g) <-
          replace_outliers g last_pos valid_indices stds sigma_clip flags' rest ;;
        Ok (row :: others, g)
      else
        '(valid_idx, g) <- random_choice g valid_indices ;;
        let '(row', g) := resample_row g (nth valid_idx last_pos []) stds sigma_clip in
        '(others, g) <-
          replace_outliers g last_pos valid_indices stds sigma_clip flags' rest ;;
        Ok (row' :: others, g)
  | _, _ => Ok ([], g)
  end.

(** Lines 521-562: one check of the ensemble; the result is the array of
    positions the next run starts from. *)
Definition check_and_repair (g : rng) (last_pos : list (list (option R)))
    (n_walkers n_dim : nat) (sigma_clip : R) : result (list (list R) * rng) :=
  let mask := invalid_mask last_pos in
  let valid_indices := np_where (map negb mask) in
  '(last_pos, g) <- replace_invalid g last_pos valid_indices n_dim last_pos ;;
  let medians := map (fun d => np_median (column last_pos d)) (seq 0 n_dim) in
  let stds := map (fun d => np_std (column last_pos d)) (seq 0 n_dim) in
  let stds := map (fun s => Rmax s (1 / 10 ^ 10)) stds in
  let valid := valid_walkers last_pos medians stds sigma_clip in
  let valid_indices := np_where valid in
  if (length valid_indices <? n_walkers)%nat then
    replace_outliers g last_pos valid_indices stds sigma_clip valid last_pos
  else Ok (last_pos, g).

(** The loop of lines 518-577. *)
Fixpoint clipping_loop (cycles : nat) (s : sampler) (g : rng)
    (n_walkers n_dim : nat) (n_steps : Z) (sigma_clip : R)
    : result (sampler * rng) :=
  match cycles with
  | O => Ok (s, g)
  | S cycles' =>
      '(pos, g) <- check_and_repair g (chain_last s) n_walkers n_dim sigma_clip ;;
      clipping_loop cycles' (run_mcmc s pos n_steps) g
        n_walkers n_dim n_steps sigma_clip
  end.

(** [mcmc_with_sigma_clipping(sampler, pos, n_steps, sigma_clip,
    repeats)] *)
Definition mcmc_with_sigma_clipping (s : sampler) (pos : list (list R))
    (n_steps : Z) (sigma_clip : R) (repeats : Z) (g : rng)
    : result (sampler * rng) :=
  let n_walkers := length pos in
  let n_dim := length (hd [] pos) in
  let s := run_mcmc s pos n_steps in
  clipping_loop (Z.to_nat (repeats - 1)) s g n_walkers n_dim n_steps sigma_clip.

End SigmaClipping.

(* ================================================================== *)
(** * The result summary of [fit_dust_model]                           *)
(* ================================================================== *)

Section Summary.

(** [np.percentile(a, q)] of a one-dimensional array. *)
Variable np_percentile : list R -> R -> R.

(** Lines 939-942: the retained samples, flattened walker by walker.
    [chain] is [sampler.chain], indexed walker, step, dimension. *)
Definition samples_crop (chain : list (list (list R))) (n_steps : Z)
    (burn_in : R) (repeats : Z) : list (list R) :=
  if (repeats >? 1)%Z then
    concat (map (slice_from (- n_steps)) chain)
  else
    concat (map (slice_from (- int_of_float (IZR n_steps * (1 - burn_in)))) chain).

(** [(v[1], v[2]-v[1], v[1]-v[0])] of the percentiles 15.87, 50, 84.13. *)
Definition interval (samples : list R) : R * R * R :=
  let v0 := np_percentile samples (1587 / 100) in
  let v1 := np_percentile samples 50 in
  let v2 := np_percentile samples (8413 / 100) in
  (v1, v2 - v1, v1 - v0).

(** Lines 946-976: the dictionary [results], in insertion order. *)
Definition results_of (samples_crop : list (list R)) (n_components : Z)
    (n_dim : nat) : result (list (string * (R * R * R))) :=
  if (n_components =? 1)%Z then
    if (n_dim =? 2)%nat then
      let total_dust_mass_samples :=
        map (fun x => Rpower 10 x) (column samples_crop 0) in
      Ok [("log_dust_mass_cold"%string, interval (column samples_crop 0));
          ("temp_cold"%string, interval (column samples_crop 1));
          ("total_dust_mass"%string, interval total_dust_mass_samples)]
    else Raise ValueError
  else if (n_components =? 2)%Z then
    if (n_dim =? 4)%nat then
      let total_dust_mass_samples :=
        map2 (fun x y => Rpower 10 x + Rpower 10 y)
             (column samples_crop 0) (column samples_crop 2) in
      Ok [("log_dust_mass_cold"%string, interval (column samples_crop 0));
          ("temp_cold"%string, interval (column samples_crop 1));
          ("log_dust_mass_hot"%string, interval (column samples_crop 2));
          ("temperature_hot"%string, interval (column samples_crop 3));
          ("total_dust_mass"%string, interval total_dust_mass_samples)]
    else Raise ValueError
  else Raise NameError.

(** Lines 938-976 of [fit_dust_model]. *)
Definition summarize (chain : list (list (list R))) (n_steps : Z)
    (burn_in : R) (repeats : Z) (n_components : Z) (n_dim : nat)
    : result (list (string * (R * R * R))) :=
  results_of (samples_crop chain n_steps burn_in repeats) n_components n_dim.

End Summary.

(* ================================================================== *)
(** * Notions of the specification                                     *)
(* ================================================================== *)

(** The box as the specification words it: closed intervals. *)
Definition in_closed_box (n_components : Z) (theta : list R) : Prop :=
  match theta with
  | [m_cold; t_cold] =>
      n_components = 1%Z /\ -6 <= m_cold <= 1 /\ 20 <= t_cold <= 2000
  | [m_cold; t_cold; m_hot; t_hot] =>
      n_components = 2%Z /\ -6 <= m_cold <= 1 /\ 20 <= t_cold <= 2000 /\
      -8 <= m_hot <= 1 /\ 20 <= t_hot <= 3000 /\ t_hot > t_cold
  | _ => False
  end.

(** The box of the code: open intervals. *)
Definition in_open_box (n_components : Z) (theta : list R) : Prop :=
  match theta with
  | [m_cold; t_cold] =>
      n_components = 1%Z /\ -6 < m_cold < 1 /\ 20 < t_cold < 2000
  | [m_cold; t_cold; m_hot; t_hot] =>
      n_components = 2%Z /\ -6 < m_cold < 1 /\ 20 < t_cold < 2000 /\
      -8 < m_hot < 1 /\ 20 < t_hot < 3000 /\ t_hot > t_cold
  | _ => False
  end.

(** A parameter vector of the length its component count asks for. *)
Definition well_shaped (n_components : Z) (theta : list R) : Prop :=
  (n_components = 1%Z /\ length theta = 2%nat) \/
  (n_components = 2%Z /\ length theta = 4%nat).

(** The entries of an array that a mask of the same length selects. *)
Fixpoint select {A : Type} (a : list A) (mask : list bool) : list A :=
  match a, mask with
  | x :: a', b :: mask' => if b then x :: select a' mask' else select a' mask'
  | _, _ => []
  end.

(** An observation set with its model prediction: four sequences of equal
    length. *)
Definition well_formed (flux_model obs_flux obs_flux_err : list R)
    (obs_limits : list bool) : Prop :=
  length flux_model = length obs_limits /\
  length obs_flux = length obs_limits /\
  length obs_flux_err = length obs_limits.

(** The sum of ((obs - model) / sigma)^2 over the detections. *)
Fixpoint chi2_sum (flux_model obs_flux obs_flux_err : list R)
    (obs_limits : list bool) : R :=
  match flux_model, obs_flux, obs_flux_err, obs_limits with
  | m :: ms, o :: os, e :: es, l :: ls =>
      (if l then 0 else ((o - m) / e) ^ 2) + chi2_sum ms os es ls
  | _, _, _, _ => 0
  end.

(** The sum of log(2 pi sigma^2) over the detections. *)
Fixpoint norm_sum (obs_flux_err : list R) (obs_limits : list bool) : R :=
  match obs_flux_err, obs_limits with
  | e :: es, l :: ls =>
      (if l then 0 else ln (2 * PI * e ^ 2)) + norm_sum es ls
  | _, _ => 0
  end.

(** The Gaussian log-likelihood of the detections. *)
Definition gaussian_loglike (flux_model obs_flux obs_flux_err : list R)
    (obs_limits : list bool) : R :=
  - (1 / 2) * chi2_sum flux_model obs_flux obs_flux_err obs_limits
  - (1 / 2) * norm_sum obs_flux_err obs_limits.

(** The terms of the upper limits, added one after the other to [acc]. *)
Fixpoint limits_loglike (erf : R -> R) (flux_model obs_flux obs_flux_err : list R)
    (obs_limits : list bool) (acc : float) : float :=
  match flux_model, obs_flux, obs_flux_err, obs_limits with
  | m :: ms, o :: os, e :: es, l :: ls =>
      limits_loglike erf ms os es ls
        (if l then fadd acc (limit_term (limit_prob erf m o e)) else acc)
  | _, _, _, _ => acc
  end.

(** The pure Gaussian log-likelihood of a set of detections only:
    -1/2 sum ((obs - model) / sigma)^2 - 1/2 sum log(2 pi sigma^2). *)
Definition pure_gaussian (flux_model obs_flux obs_flux_err : list R) : R :=
  - (1 / 2) * np_sum (map2 (fun d s => (d / s) ^ 2)
                        (map2 Rminus obs_flux flux_model) obs_flux_err)
  - (1 / 2) * np_sum (map (fun s => ln (2 * PI * s ^ 2)) obs_flux_err).


(** An observation set without upper limits, and one without detections. *)
Definition no_limits (obs_limits : list bool) : Prop :=
  Forall (fun l => l = false) obs_limits.


(** An error function as floating point delivers it: odd, non-decreasing,
    and exactly -1 or 1 outside a bounded range.  It instantiates
    [scipy.special.erf] where a theorem is run on concrete data. *)
Definition clipped_erf (x : R) : R := Rmax (-1) (Rmin 1 x).

(** A body that does not radiate, and stand-ins for the helpers of
    [utils.py] that a run with a distance and an opacity grid never calls:
    the collaborators of the concrete runs below. *)
Definition dark_body : R -> R -> R := fun _ _ => 0.
Definition unit_distance : R -> R := fun _ => 1.
Definition no_coefficients : R -> string -> bool -> list R * list R :=
  fun _ _ _ => ([], []).
Definition no_interpolation : list R -> list R -> list R -> list R :=
  fun _ _ _ => [].
Definition no_filter_flux : list R -> list R -> list R -> list R -> R :=
  fun _ _ _ _ => 0.

(** [obs'] is [obs] with some of its upper limits raised and every
    detection left as it is. *)
Fixpoint limits_raised (obs obs' : list R) (obs_limits : list bool) : Prop :=
  match obs, obs', obs_limits with
  | o :: os, o' :: os', l :: ls =>
      (if l then o <= o' else o = o') /\ limits_raised os os' ls
  | [], [], [] => True
  | _, _, _ => False
  end.

(** A position on which [log_prior] returns a finite value. *)
Definition finite_prior (n_components : Z) (p : list R) : Prop :=
  exists lp : float, log_prior p n_components = Ok lp /\ isfinite lp = true.


(* ================================================================== *)
(** * The comparison of the two fits                                   *)
(* ================================================================== *)

(** The information criteria are floats that can also be plus infinity or
    NaN, when a likelihood is minus infinity or there is no data. *)
Inductive xfloat : Type :=
| XFinite (r : R)
| XPosInf
| XNegInf
| XNaN.

Definition of_float (x : float) : xfloat :=
  match x with
  | Finite r => XFinite r
  | NegInf => XNegInf
  end.

(** Float subtraction. *)
Definition xsub (a b : xfloat) : xfloat :=
  match a, b with
  | XNaN, _ => XNaN
  | _, XNaN => XNaN
  | XFinite x, XFinite y => XFinite (x - y)
  | XFinite _, XPosInf => XNegInf
  | XFinite _, XNegInf => XPosInf
  | XPosInf, XPosInf => XNaN
  | XPosInf, _ => XPosInf
  | XNegInf, XNegInf => XNaN
  | XNegInf, _ => XNegInf
  end.

(** The product of a finite number and a float. *)
Definition xscale (c : R) (a : xfloat) : xfloat :=
  match a with
  | XFinite x => XFinite (c * x)
  | XNaN => XNaN
  | XPosInf => if Rltb 0 c then XPosInf else if Rltb c 0 then XNegInf else XNaN
  | XNegInf => if Rltb 0 c then XNegInf else if Rltb c 0 then XPosInf else XNaN
  end.

(** [np.log(n)] of a length: minus infinity at 0. *)
Definition np_log_len (n : nat) : xfloat :=
  match n with
  | O => XNegInf
  | S _ => XFinite (ln (INR n))
  end.

(** [x > 0] and [x <= 0]; both are false on NaN. *)
Definition xpositive (x : xfloat) : bool :=
  match x with
  | XFinite r => Rltb 0 r
  | XPosInf => true
  | _ => false
  end.

Definition xnonpositive (x : xfloat) : bool :=
  match x with
  | XFinite r => negb (Rltb 0 r)
  | XNegInf => true
  | _ => false
  end.

(** The three messages of lines 1119-1124. *)
Inductive message : Type :=
| both_favor_two
| aic_favors_two_bic_favors_one
| both_favor_one.

(** The dictionary returned by [compare_models], with the message it
    printed, if any. *)
Record comparison : Type := {
  comp1 : list (string * (R * R * R));
  comp2 : list (string * (R * R * R));
  log_like_1 : float;
  log_like_2 : float;
  aic_1comp : xfloat;
  aic_2comp : xfloat;
  delta_aic : xfloat;
  bic_1comp : xfloat;
  bic_2comp : xfloat;
  delta_bic : xfloat;
  printed : option message
}.

(** [[results[key][0] for key in results.keys()][:-1]]: the medians of all
    the entries but the last, in insertion order (the keys of a dictionary
    are distinct). *)
Definition best_params (results : list (string * (R * R * R))) : list R :=
  removelast (map (fun kv => fst (fst (snd kv))) results).

Section Comparison.

Variable BlackBody : R -> R -> R.
Variable calc_distance : R -> R.
Variable import_coefficients : R -> string -> bool -> list R * list R.
Variable interpolate_kappa : list R -> list R -> list R -> list R.
Variable calc_filter_flux : list R -> list R -> list R -> list R -> R.
Variable sp_erf : R -> R.

(** [compare_models(obs_wave, obs_flux, obs_flux_err, obs_limits, redshift,
    object_name, results_1, results_2, composition1, composition2,
    grain_size, obs_wave_filters, obs_trans_filters)], lines 1079-1124 and
    1178-1190; the figure is left out. *)
Definition compare_models (obs_wave obs_flux obs_flux_err : list R)
    (obs_limits : list bool) (redshift : R)
    (results_1 results_2 : list (string * (R * R * R)))
    (composition1 composition2 : string) (grain_size : R)
    (obs_wave_filters obs_trans_filters : option (list (list R)))
    : result comparison :=
  let distance := calc_distance redshift in
  let '(wave_kappa_1, kappa_1) :=
    import_coefficients grain_size composition1 false in
  let obs_wave_rest_1 := map (fun w => w / (1 + redshift)) obs_wave in
  let kappa_interp_1 := interpolate_kappa wave_kappa_1 kappa_1 obs_wave_rest_1 in
  let best_params_1 := best_params results_1 in
  ll_1 <- log_likelihood BlackBody calc_distance import_coefficients
            interpolate_kappa calc_filter_flux sp_erf best_params_1 obs_wave
            obs_flux obs_flux_err obs_limits kappa_interp_1 redshift distance
            1%Z obs_wave_filters obs_trans_filters ;;
  let '(wave_kappa_2, kappa_2) :=
    import_coefficients grain_size composition2 false in
  let obs_wave_rest_2 := map (fun w => w / (1 + redshift)) obs_wave in
  let kappa_interp_2 := interpolate_kappa wave_kappa_2 kappa_2 obs_wave_rest_2 in
  let best_params_2 := best_params results_2 in
  ll_2 <- log_likelihood BlackBody calc_distance import_coefficients
            interpolate_kappa calc_filter_flux sp_erf best_params_2 obs_wave
            obs_flux obs_flux_err obs_limits kappa_interp_2 redshift distance
            2%Z obs_wave_filters obs_trans_filters ;;
  let n_data := length obs_flux in
  let n_params_1 := length best_params_1 in
  let n_params_2 := length best_params_2 in
  let aic_1 := xsub (XFinite (2 * INR n_params_1)) (xscale 2 (of_float ll_1)) in
  let aic_2 := xsub (XFinite (2 * INR n_params_2)) (xscale 2 (of_float ll_2)) in
  let d_aic := xsub aic_1 aic_2 in
  let bic_1 := xsub (xscale (INR n_params_1) (np_log_len n_data))
                    (xscale 2 (of_float ll_1)) in
  let bic_2 := xsub (xscale (INR n_params_2) (np_log_len n_data))
                    (xscale 2 (of_float ll_2)) in
  let d_bic := xsub bic_1 bic_2 in
  let msg :=
    if xpositive d_aic && xpositive d_bic then Some both_favor_two
    else if xpositive d_aic && xnonpositive d_bic
    then Some aic_favors_two_bic_favors_one
    else if xnonpositive d_aic && xnonpositive d_bic then Some both_favor_one
    else None in
  Ok {| comp1 := results_1; comp2 := results_2;
        log_like_1 := ll_1; log_like_2 := ll_2;
        aic_1comp := aic_1; aic_2comp := aic_2; delta_aic := d_aic;
        bic_1comp := bic_1; bic_2comp := bic_2; delta_bic := d_bic;
        printed := msg |}.

End Comparison.

(** Every upper limit of the observation set has a positive probability
    under the model. *)
Definition limits_all_positive (erf : R -> R)
    (flux_model obs_flux obs_flux_err : list R) (obs_limits : list bool) : Prop :=
  forall (j : nat) (m o e : R),
    nth_error obs_limits j = Some true ->
    nth_error flux_model j = Some m ->
    nth_error obs_flux j = Some o ->
    nth_error obs_flux_err j = Some e ->
    0 < limit_prob erf m o e.

(** More collaborators of the concrete runs: an opacity of 1 at every
    wavelength, a filter that returns the first model flux, and the
    summaries of a one- and of a two-component fit. *)
Definition flat_opacity : list R -> list R -> list R -> list R :=
  fun _ _ rest_wave => map (fun _ => 1) rest_wave.

Definition first_flux : list R -> list R -> list R -> list R -> R :=
  fun _ flux _ _ => hd 0 flux.

Definition summary_1 : list (string * (R * R * R)) :=
  [("log_dust_mass_cold"%string, (0, 0, 0));
   ("temp_cold"%string, (100, 0, 0));
   ("total_dust_mass"%string, (1, 0, 0))].

Definition summary_2 : list (string * (R * R * R)) :=
  [("log_dust_mass_cold"%string, (0, 0, 0));
   ("temp_cold"%string, (100, 0, 0));
   ("log_dust_mass_hot"%string, (0, 0, 0));
   ("temperature_hot"%string, (200, 0, 0));
   ("total_dust_mass"%string, (2, 0, 0))].

(* ================================================================== *)
(** * Basic facts about the prelude                                    *)
(* ================================================================== *)

Lemma Rltb_true_iff (x y : R) : Rltb x y = true <-> x < y.
Proof.
  unfold Rltb. destruct (Rlt_dec x y); split; intros; auto; discriminate.
Qed.

Lemma Rltb_false_iff (x y : R) : Rltb x y = false <-> ~ x < y.
Proof.
  unfold Rltb. destruct (Rlt_dec x y); split; intros; auto;
    try discriminate. contradiction.
Qed.

Lemma between_true_iff (lo hi x : R) : between (lo, hi) x = true <-> lo < x < hi.
Proof.
  unfold between. simpl. rewrite andb_true_iff, !Rltb_true_iff. tauto.
Qed.

(** Decide a comparison of two real constants. *)
Ltac decide_Rltb :=
  repeat match goal with
  | |- context [Rltb ?x ?y] =>
      first [ replace (Rltb x y) with true
                by (symmetry; apply Rltb_true_iff; lra)
            | replace (Rltb x y) with false
                by (symmetry; apply Rltb_false_iff; lra) ]
  end.

(* ================================================================== *)
(** * The prior: the box is open                                       *)
(* ================================================================== *)

(** C3, amended: strictly inside the box (and, with two components, with
    the hot temperature above the cold one) the log-prior is 0; for every
    other parameter vector of the right length it is minus infinity. *)
Theorem log_prior_open_box (theta : list R) (n_components : Z) :
  (in_open_box n_components theta ->
   log_prior theta n_components = Ok (Finite 0)) /\
  (well_shaped n_components theta -> ~ in_open_box n_components theta ->
   log_prior theta n_components = Ok NegInf).
Proof.
  split.
  - destruct theta as [|a [|b [|c [|d [|e t]]]]]; simpl; try tauto.
    + intros (-> & Ha & Hb). unfold log_prior. simpl.
      rewrite (proj2 (between_true_iff _ _ _) Ha).
      rewrite (proj2 (between_true_iff _ _ _) Hb). reflexivity.
    + intros (-> & Ha & Hb & Hc & Hd & He). unfold log_prior. simpl.
      rewrite (proj2 (between_true_iff _ _ _) Ha).
      rewrite (proj2 (between_true_iff _ _ _) Hb).
      rewrite (proj2 (between_true_iff _ _ _) Hc).
      rewrite (proj2 (between_true_iff _ _ _) Hd). simpl.
      unfold Rgtb. rewrite (proj2 (Rltb_true_iff _ _) He). reflexivity.
  - intros [[-> Hl] | [-> Hl]] Hout.
    + destruct theta as [|a [|b [|c t]]]; try discriminate.
      unfold log_prior. simpl.
      destruct (between (-6, 1) a) eqn:Ea; simpl; auto.
      destruct (between (20, 2000) b) eqn:Eb; simpl; auto.
      exfalso. apply Hout. simpl.
      apply between_true_iff in Ea. apply between_true_iff in Eb. tauto.
    + destruct theta as [|a [|b [|c [|d [|e t]]]]]; try discriminate.
      unfold log_prior. simpl.
      destruct (between (-6, 1) a) eqn:Ea; simpl; auto.
      destruct (between (20, 2000) b) eqn:Eb; simpl; auto.
      destruct (between (-8, 1) c) eqn:Ec; simpl; auto.
      destruct (between (20, 3000) d) eqn:Ed; simpl; auto.
      destruct (Rgtb d b) eqn:Eg; auto.
      exfalso. apply Hout. simpl.
      apply between_true_iff in Ea. apply between_true_iff in Eb.
      apply between_true_iff in Ec. apply between_true_iff in Ed.
      apply Rltb_true_iff in Eg. unfold Rgt. tauto.
Qed.

Lemma log_prior_open_box_witness :
  log_prior [0; 100] 1 = Ok (Finite 0) /\
  log_prior [0; 500; 0; 100] 2 = Ok NegInf.
Proof.
  split.
  - apply (proj1 (log_prior_open_box [0; 100] 1)). simpl.
    repeat split; lra.
  - apply (proj2 (log_prior_open_box [0; 500; 0; 100] 2)).
    + right. split; reflexivity.
    + simpl. intros (_ & _ & _ & _ & _ & H). lra.
Defined.

(** C3 as stated fails on the boundary of the box: a log-mass of exactly
    -6 lies in [-6, 1], and the log-prior there is minus infinity. *)
Lemma log_prior_closed_box_counterexample :
  in_closed_box 1 [-6; 100] /\
  log_prior [-6; 100] 1 = Ok NegInf /\
  log_prior [-6; 100] 1 <> Ok (Finite 0).
Proof.
  assert (E : log_prior [-6; 100] 1 = Ok NegInf).
  { unfold log_prior, between. simpl. decide_Rltb. reflexivity. }
  split; [|split].
  - simpl. repeat split; lra.
  - exact E.
  - rewrite E. discriminate.
Qed.

(* ================================================================== *)
(** * The flux: the direction of the redshift factor                   *)
(* ================================================================== *)

Lemma calc_flux_per_Hz (rest_wave L : list R) (d z : R) (output_units : string) :
  calc_flux rest_wave {| value := L; unit := erg_s_Hz |} d z output_units =
  to_output output_units (map (fun w => w * (1 + z)) rest_wave)
    (map (fun l => l / (4 * PI * d ^ 2) * (1 + z)) L, erg_s_cm2_Hz).
Proof. reflexivity. Qed.

Lemma calc_flux_per_AA (rest_wave L : list R) (d z : R) (output_units : string) :
  calc_flux rest_wave {| value := L; unit := erg_s_AA |} d z output_units =
  to_output output_units (map (fun w => w * (1 + z)) rest_wave)
    (map (fun l => l / (4 * PI * d ^ 2) / (1 + z)) L, erg_s_cm2_AA).
Proof. reflexivity. Qed.

(** C1, amended: the flux is luminosity / (4 pi distance^2), multiplied by
    (1+z) for a luminosity per unit frequency and divided by (1+z) for a
    luminosity per unit wavelength; in Jy the per-frequency value is scaled
    by 10^23. *)
Theorem calc_flux_redshift_factor (rest_wave L : list R) (d z : R) :
  calc_flux rest_wave {| value := L; unit := erg_s_Hz |} d z "nu" =
    Ok (map (fun l => l / (4 * PI * d ^ 2) * (1 + z)) L) /\
  calc_flux rest_wave {| value := L; unit := erg_s_AA |} d z "lambda" =
    Ok (map (fun l => l / (4 * PI * d ^ 2) / (1 + z)) L) /\
  calc_flux rest_wave {| value := L; unit := erg_s_Hz |} d z "Jy" =
    Ok (map (fun l => l / (4 * PI * d ^ 2) * (1 + z) * 10 ^ 23) L).
Proof.
  repeat split.
  rewrite calc_flux_per_Hz. unfold to_output. simpl String.eqb. cbv iota.
  rewrite map_map. reflexivity.
Qed.

(** C1 as stated fails: at redshift 1, distance 1 and luminosity 1 the
    per-frequency flux is not the one divided by (1+z), and the
    per-wavelength flux is not the one multiplied by (1+z). *)
Lemma calc_flux_claimed_direction_counterexample :
  calc_flux [1] {| value := [1]; unit := erg_s_Hz |} 1 1 "nu" <>
    Ok [1 / (4 * PI * 1 ^ 2) / (1 + 1)] /\
  calc_flux [1] {| value := [1]; unit := erg_s_AA |} 1 1 "lambda" <>
    Ok [1 / (4 * PI * 1 ^ 2) * (1 + 1)].
Proof.
  assert (Hpi := PI_RGT_0).
  assert (Ha : 0 < 1 / (4 * PI * 1 ^ 2)).
  { apply Rdiv_lt_0_compat; lra. }
  split; intro H.
  - rewrite calc_flux_per_Hz in H. unfold to_output in H.
    simpl String.eqb in H. cbv iota in H. unfold map in H.
    set (a := 1 / (4 * PI * 1 ^ 2)) in *. injection H as H. lra.
  - rewrite calc_flux_per_AA in H. unfold to_output in H.
    simpl String.eqb in H. cbv iota in H. unfold map in H.
    set (a := 1 / (4 * PI * 1 ^ 2)) in *. injection H as H. lra.
Qed.

(* ================================================================== *)
(** * The two-component flux                                           *)
(* ================================================================== *)

Lemma map2_length {A B C : Type} (f : A -> B -> C) (a : list A) (b : list B) :
  length a = length b -> length (map2 f a b) = length a.
Proof.
  intros H. unfold map2. rewrite length_map, length_combine, H.
  apply Nat.min_id.
Qed.

Lemma nth_vadd (a b : list R) (i : nat) :
  length a = length b -> nth i (vadd a b) 0 = nth i a 0 + nth i b 0.
Proof.
  revert b i. induction a as [|x a IH]; intros [|y b] i H; try discriminate.
  - destruct i; simpl; lra.
  - destruct i; simpl; [reflexivity|]. apply IH. simpl in H. lia.
Qed.

Section TwoComponents.

Variable BlackBody : R -> R -> R.
Variable calc_distance : R -> R.
Variable import_coefficients : R -> string -> bool -> list R * list R.
Variable interpolate_kappa : list R -> list R -> list R -> list R.
Variable calc_filter_flux : list R -> list R -> list R -> list R -> R.

Let flux := model_flux BlackBody calc_distance import_coefficients
              interpolate_kappa calc_filter_flux.

Lemma calc_luminosity_length (rest_wave kappa_interp : list R)
    (dust_mass temperature : R) (output_units : string) (q : Quantity) :
  calc_luminosity BlackBody rest_wave kappa_interp dust_mass temperature
    output_units = Ok q ->
  length (value q) = length rest_wave.
Proof.
  unfold calc_luminosity.
  destruct (length rest_wave =? length kappa_interp)%nat eqn:E;
    simpl; [|discriminate].
  apply Nat.eqb_eq in E.
  assert (Hn : length (map (fun l => l * Msun_g)
              (map2 (fun k b => dust_mass * k * b * (4 * PI)) kappa_interp
                 (map (BlackBody temperature) rest_wave))) = length rest_wave).
  { rewrite length_map, map2_length; rewrite ?length_map; lia. }
  destruct (String.eqb output_units "nu"); [intros [= <-]; exact Hn|].
  destruct (String.eqb output_units "lambda"); [|discriminate].
  intros [= <-]. simpl. rewrite map2_length; lia.
Qed.

Lemma one_component_length (m t : R) (obs_wave obs_flux kappa_interp : list R)
    (z d : R) (f : list R) :
  flux [m; t] obs_wave obs_flux kappa_interp z d 1%Z None None = Ok f ->
  length f = length obs_wave.
Proof.
  unfold flux, model_flux, calc_model_flux. simpl Z.eqb. cbv iota.
  destruct (calc_luminosity _ _ _ _ _ _) as [q|e] eqn:E; simpl; [|discriminate].
  pose proof (calc_luminosity_length _ _ _ _ _ _ E) as Hq.
  rewrite length_map in Hq.
  unfold calc_luminosity in E.
  destruct (negb _) in E; [discriminate|]. simpl in E. injection E as <-.
  rewrite calc_flux_per_Hz. unfold to_output. simpl String.eqb. cbv iota.
  intros [= <-]. simpl value in Hq. rewrite !length_map.
  rewrite length_map in Hq. exact Hq.
Qed.

(** C8: the two-component flux is the elementwise sum of the
    one-component fluxes of the cold and of the hot parameters, evaluated
    with the same grids, redshift and distance. *)
Theorem model_flux_two_components (m_cold t_cold m_hot t_hot : R)
    (obs_wave obs_flux kappa_interp : list R) (z d : R) :
  flux [m_cold; t_cold; m_hot; t_hot] obs_wave obs_flux kappa_interp z d 2%Z
       None None =
    (flux1 <- flux [m_cold; t_cold] obs_wave obs_flux kappa_interp z d 1%Z
                None None ;;
     flux2 <- flux [m_hot; t_hot] obs_wave obs_flux kappa_interp z d 1%Z
                None None ;;
     Ok (vadd flux1 flux2)) /\
  (forall flux1 flux2 : list R,
     flux [m_cold; t_cold] obs_wave obs_flux kappa_interp z d 1%Z None None
       = Ok flux1 ->
     flux [m_hot; t_hot] obs_wave obs_flux kappa_interp z d 1%Z None None
       = Ok flux2 ->
     flux [m_cold; t_cold; m_hot; t_hot] obs_wave obs_flux kappa_interp z d 2%Z
          None None = Ok (vadd flux1 flux2) /\
     length (vadd flux1 flux2) = length obs_wave /\
     forall i : nat,
       nth i (vadd flux1 flux2) 0 = nth i flux1 0 + nth i flux2 0).
Proof.
  assert (E : flux [m_cold; t_cold; m_hot; t_hot] obs_wave obs_flux
                kappa_interp z d 2%Z None None =
              (flux1 <- flux [m_cold; t_cold] obs_wave obs_flux kappa_interp
                          z d 1%Z None None ;;
               flux2 <- flux [m_hot; t_hot] obs_wave obs_flux kappa_interp
                          z d 1%Z None None ;;
               Ok (vadd flux1 flux2))).
  { unfold flux, model_flux. simpl Z.eqb. cbv iota.
    destruct (calc_model_flux _ _ _ _ obs_wave (Rpower 10 m_cold) _ _ _ _ _ _ _ _ _);
      simpl; [|reflexivity].
    destruct (calc_model_flux _ _ _ _ obs_wave (Rpower 10 m_hot) _ _ _ _ _ _ _ _ _);
      reflexivity. }
  split; [exact E|].
  intros flux1 flux2 H1 H2.
  pose proof (one_component_length _ _ _ _ _ _ _ _ H1) as L1.
  pose proof (one_component_length _ _ _ _ _ _ _ _ H2) as L2.
  rewrite E, H1, H2. simpl. split; [reflexivity|]. split.
  - unfold vadd. rewrite map2_length; lia.
  - intros i. apply nth_vadd. lia.
Qed.

End TwoComponents.

Lemma model_flux_two_components_witness :
  let flux := model_flux (fun _ _ => 1) (fun _ => 1) (fun _ _ _ => ([], []))
                (fun _ _ _ => []) (fun _ _ _ _ => 0) in
  exists flux1 flux2 : list R,
    flux [0; 100] [10] [1] [1] 0 1 1%Z None None = Ok flux1 /\
    flux [0; 200] [10] [1] [1] 0 1 1%Z None None = Ok flux2 /\
    flux [0; 100; 0; 200] [10] [1] [1] 0 1 2%Z None None = Ok (vadd flux1 flux2) /\
    length (vadd flux1 flux2) = 1%nat /\
    forall i : nat, nth i (vadd flux1 flux2) 0 = nth i flux1 0 + nth i flux2 0.
Proof.
  intros flux. eexists. eexists.
  split; [reflexivity|]. split; [reflexivity|].
  apply (proj2 (model_flux_two_components (fun _ _ => 1) (fun _ => 1)
                  (fun _ _ _ => ([], [])) (fun _ _ _ => []) (fun _ _ _ _ => 0)
                  0 100 0 200 [10] [1] [1] 0 1)); reflexivity.
Defined.

(* ================================================================== *)
(** * The likelihood as a sum over detections and upper limits         *)
(* ================================================================== *)

Lemma fadd_NegInf_r (x : float) : fadd x NegInf = NegInf.
Proof. destruct x; reflexivity. Qed.

Lemma mask_index_select {A : Type} (a : list A) (mask : list bool) :
  length a = length mask -> mask_index a mask = Ok (select a mask).
Proof.
  revert mask. induction a as [|x a IH]; intros [|b mask] H; try discriminate.
  - reflexivity.
  - simpl. rewrite IH by (simpl in H; lia). simpl. destruct b; reflexivity.
Qed.

Lemma np_sum_cons (x : R) (l : list R) : np_sum (x :: l) = x + np_sum l.
Proof. reflexivity. Qed.

Lemma square_ratio (d s : R) : 1 / s ^ 2 * d ^ 2 = (d / s) ^ 2.
Proof.
  unfold Rdiv. rewrite Rmult_1_l, Rpow_mult_distr, pow_inv. ring.
Qed.

Lemma detection_sums (flux_model obs_flux obs_flux_err : list R)
    (obs_limits : list bool) :
  well_formed flux_model obs_flux obs_flux_err obs_limits ->
  let det := map negb obs_limits in
  np_sum (map2 (fun w d => w * d ^ 2)
            (map (fun s => 1 / s ^ 2) (select obs_flux_err det))
            (map2 Rminus (select obs_flux det) (select flux_model det)))
    = chi2_sum flux_model obs_flux obs_flux_err obs_limits /\
  np_sum (map (fun s => ln (2 * PI * s ^ 2)) (select obs_flux_err det))
    = norm_sum obs_flux_err obs_limits.
Proof.
  revert flux_model obs_flux obs_flux_err.
  induction obs_limits as [|l ls IH];
    intros [|m ms] [|o os] [|e es] (H1 & H2 & H3); try discriminate.
  - simpl. split; reflexivity.
  - destruct (IH ms os es) as [IHa IHb].
    { simpl in *. repeat split; lia. }
    cbv zeta in *. unfold map2 in *.
    destruct l; cbn [map negb select chi2_sum norm_sum combine fst snd].
    + rewrite IHa, IHb. split; ring.
    + rewrite !np_sum_cons, IHa, IHb, square_ratio. split; ring.
Qed.

Lemma no_detection_sums (flux_model obs_flux obs_flux_err : list R)
    (obs_limits : list bool) :
  np_any (map negb obs_limits) = false ->
  chi2_sum flux_model obs_flux obs_flux_err obs_limits = 0 /\
  norm_sum obs_flux_err obs_limits = 0.
Proof.
  revert flux_model obs_flux obs_flux_err.
  induction obs_limits as [|l ls IH]; intros ms os es H.
  - destruct ms, os, es; simpl; split; reflexivity.
  - simpl in H. apply orb_false_iff in H. destruct H as [Hl H].
    destruct l; [|discriminate].
    destruct ms as [|m ms], os as [|o os], es as [|e es]; simpl;
      try (split; reflexivity).
    + destruct (IH [] [] es H) as [_ ->]. split; ring.
    + destruct (IH [] os es H) as [_ ->]. split; ring.
    + destruct (IH ms [] es H) as [_ ->]. split; ring.
    + destruct (IH ms os es H) as [-> ->]. split; ring.
Qed.

Lemma no_limit_terms (erf : R -> R) (flux_model obs_flux obs_flux_err : list R)
    (obs_limits : list bool) (acc : float) :
  np_any obs_limits = false ->
  limits_loglike erf flux_model obs_flux obs_flux_err obs_limits acc = acc.
Proof.
  revert flux_model obs_flux obs_flux_err acc.
  induction obs_limits as [|l ls IH]; intros ms os es acc H.
  - destruct ms, os, es; reflexivity.
  - simpl in H. apply orb_false_iff in H. destruct H as [-> H].
    destruct ms, os, es; simpl; auto.
Qed.

Lemma index_app_length {A : Type} (pre : list A) (x : A) (rest : list A) :
  index (pre ++ x :: rest) (length pre) = Ok x.
Proof.
  unfold index. rewrite nth_error_app2 by lia.
  rewrite Nat.sub_diag. reflexivity.
Qed.

Lemma limit_loop_where (erf : R -> R) (obs_limits : list bool) :
  forall (flux_model obs_flux obs_flux_err pm po pe : list R) (acc : float),
    well_formed flux_model obs_flux obs_flux_err obs_limits ->
    length po = length pm -> length pe = length pm ->
    limit_loop erf (pm ++ flux_model) (po ++ obs_flux) (pe ++ obs_flux_err)
      (where_from (length pm) obs_limits) acc
    = Ok (limits_loglike erf flux_model obs_flux obs_flux_err obs_limits acc).
Proof.
  induction obs_limits as [|l ls IH];
    intros [|m ms] [|o os] [|e es] pm po pe acc (H1 & H2 & H3) Hpo Hpe;
    try discriminate.
  - reflexivity.
  - assert (Hwf : well_formed ms os es ls).
    { simpl in *. repeat split; lia. }
    assert (Hrec : forall acc',
      limit_loop erf (pm ++ m :: ms) (po ++ o :: os) (pe ++ e :: es)
        (where_from (S (length pm)) ls) acc'
      = Ok (limits_loglike erf ms os es ls acc')).
    { intros acc'.
      replace (pm ++ m :: ms) with ((pm ++ [m]) ++ ms)
        by (rewrite <- app_assoc; reflexivity).
      replace (po ++ o :: os) with ((po ++ [o]) ++ os)
        by (rewrite <- app_assoc; reflexivity).
      replace (pe ++ e :: es) with ((pe ++ [e]) ++ es)
        by (rewrite <- app_assoc; reflexivity).
      replace (S (length pm)) with (length (pm ++ [m]))
        by (rewrite length_app; simpl; lia).
      apply IH; auto; rewrite !length_app; simpl; lia. }
    destruct l; simpl where_from; simpl limits_loglike.
    + assert (Eo : index (po ++ o :: os) (length pm) = Ok o)
        by (rewrite <- Hpo; apply index_app_length).
      assert (Ee : index (pe ++ e :: es) (length pm) = Ok e)
        by (rewrite <- Hpe; apply index_app_length).
      cbn [limit_loop app]. rewrite index_app_length. cbn [bind].
      rewrite Eo. cbn [bind]. rewrite Ee. cbn [bind]. apply Hrec.
    + apply Hrec.
Qed.

(** On a well-formed observation set the likelihood is the Gaussian
    log-likelihood of the detections, to which the term of every upper
    limit is added in turn. *)
Lemma likelihood_decomposition (erf : R -> R)
    (flux_model obs_flux obs_flux_err : list R) (obs_limits : list bool) :
  well_formed flux_model obs_flux obs_flux_err obs_limits ->
  likelihood_of_flux erf flux_model obs_flux obs_flux_err obs_limits =
  Ok (limits_loglike erf flux_model obs_flux obs_flux_err obs_limits
        (Finite (gaussian_loglike flux_model obs_flux obs_flux_err obs_limits))).
Proof.
  intros Hwf. pose proof Hwf as (H1 & H2 & H3).
  unfold likelihood_of_flux.
  assert (Hdet :
    (if np_any (map negb obs_limits)
     then detection_block flux_model obs_flux obs_flux_err
            (map negb obs_limits) (Finite 0)
     else Ok (Finite 0))
    = Ok (Finite (gaussian_loglike flux_model obs_flux obs_flux_err obs_limits))).
  { destruct (np_any (map negb obs_limits)) eqn:E.
    - unfold detection_block.
      rewrite !mask_index_select by (rewrite length_map; lia). cbn [bind].
      destruct (detection_sums _ _ _ _ Hwf) as [-> ->].
      unfold gaussian_loglike. cbn [fsub]. do 2 f_equal. ring.
    - destruct (no_detection_sums flux_model obs_flux obs_flux_err _ E)
        as [Ha Hb].
      unfold gaussian_loglike. rewrite Ha, Hb. do 2 f_equal. ring. }
  rewrite Hdet. simpl.
  destruct (np_any obs_limits) eqn:E.
  - apply (limit_loop_where erf obs_limits flux_model obs_flux obs_flux_err
             [] [] []); auto.
  - rewrite no_limit_terms by exact E. reflexivity.
Qed.

Lemma no_limits_any (obs_limits : list bool) :
  no_limits obs_limits -> np_any obs_limits = false.
Proof.
  induction 1 as [|l ls Hl _ IH]; [reflexivity|].
  simpl. rewrite Hl. exact IH.
Qed.


Lemma gaussian_without_limits (flux_model obs_flux obs_flux_err : list R)
    (obs_limits : list bool) :
  well_formed flux_model obs_flux obs_flux_err obs_limits ->
  no_limits obs_limits ->
  gaussian_loglike flux_model obs_flux obs_flux_err obs_limits =
  pure_gaussian flux_model obs_flux obs_flux_err.
Proof.
  intros Hwf Hno. unfold gaussian_loglike, pure_gaussian.
  assert (H : chi2_sum flux_model obs_flux obs_flux_err obs_limits =
              np_sum (map2 (fun d s => (d / s) ^ 2)
                        (map2 Rminus obs_flux flux_model) obs_flux_err) /\
              norm_sum obs_flux_err obs_limits =
              np_sum (map (fun s => ln (2 * PI * s ^ 2)) obs_flux_err)).
  { revert flux_model obs_flux obs_flux_err Hwf.
    induction Hno as [|l ls Hl _ IH];
      intros [|m ms] [|o os] [|e es] (H1 & H2 & H3); try discriminate.
    - split; reflexivity.
    - subst l. destruct (IH ms os es) as [IHa IHb].
      { simpl in *. repeat split; lia. }
      unfold map2 in *.
      cbn [chi2_sum norm_sum map combine fst snd].
      rewrite !np_sum_cons, IHa, IHb. split; reflexivity. }
  destruct H as [-> ->]. reflexivity.
Qed.


Lemma limits_loglike_NegInf (erf : R -> R)
    (flux_model obs_flux obs_flux_err : list R) (obs_limits : list bool) :
  limits_loglike erf flux_model obs_flux obs_flux_err obs_limits NegInf = NegInf.
Proof.
  revert flux_model obs_flux obs_flux_err.
  induction obs_limits as [|l ls IH];
    intros [|m ms] [|o os] [|e es]; try reflexivity.
  simpl. destruct l; apply IH.
Qed.

Lemma limit_term_positive (p : R) : 0 < p -> limit_term p = Finite (ln p).
Proof.
  intros H. unfold limit_term, Rgtb.
  now rewrite (proj2 (Rltb_true_iff 0 p) H).
Qed.

Lemma limit_term_not_positive (p : R) : p <= 0 -> limit_term p = NegInf.
Proof.
  intros H. unfold limit_term, Rgtb.
  rewrite (proj2 (Rltb_false_iff 0 p)); [reflexivity | lra].
Qed.

Lemma limits_loglike_zero_prob (erf : R -> R) (j : nat) :
  forall (flux_model obs_flux obs_flux_err : list R) (obs_limits : list bool)
         (acc : float) (m o e : R),
    nth_error obs_limits j = Some true ->
    nth_error flux_model j = Some m ->
    nth_error obs_flux j = Some o ->
    nth_error obs_flux_err j = Some e ->
    limit_prob erf m o e = 0 ->
    limits_loglike erf flux_model obs_flux obs_flux_err obs_limits acc = NegInf.
Proof.
  induction j as [|j IH];
    intros [|m' ms] [|o' os] [|e' es] [|l ls] acc m o e Hl Hm Ho He Hp;
    try discriminate; simpl in *.
  - injection Hl as ->. injection Hm as ->. injection Ho as ->.
    injection He as ->. rewrite Hp.
    rewrite limit_term_not_positive by lra.
    rewrite fadd_NegInf_r. apply limits_loglike_NegInf.
  - eapply IH; eauto.
Qed.

(* ================================================================== *)
(** * The likelihood and the posterior: the claims                     *)
(* ================================================================== *)

Section LikelihoodTheorems.

Variable BlackBody : R -> R -> R.
Variable calc_distance : R -> R.
Variable import_coefficients : R -> string -> bool -> list R * list R.
Variable interpolate_kappa : list R -> list R -> list R -> list R.
Variable calc_filter_flux : list R -> list R -> list R -> list R -> R.
Variable sp_erf : R -> R.

Let flux := model_flux BlackBody calc_distance import_coefficients
              interpolate_kappa calc_filter_flux.
Let loglike := log_likelihood BlackBody calc_distance import_coefficients
                 interpolate_kappa calc_filter_flux sp_erf.
Let logprob := log_probability BlackBody calc_distance import_coefficients
                 interpolate_kappa calc_filter_flux sp_erf.

Lemma log_likelihood_of_flux (theta obs_wave obs_flux obs_flux_err : list R)
    (obs_limits : list bool) (kappa_interp : list R) (z d : R) (n : Z)
    (wf tf : option (list (list R))) (flux_model : list R) :
  flux theta obs_wave obs_flux kappa_interp z d n wf tf = Ok flux_model ->
  loglike theta obs_wave obs_flux obs_flux_err obs_limits kappa_interp z d n
    wf tf
  = likelihood_of_flux sp_erf flux_model obs_flux obs_flux_err obs_limits.
Proof.
  intros H. unfold loglike, log_likelihood. fold flux. rewrite H. reflexivity.
Qed.

(** C5: on a well-formed observation set with non-zero uncertainties the
    likelihood never raises; to the Gaussian term of the detections every
    upper limit adds log(Phi(z)), with z = (model - obs) / sigma and
    Phi(z) = (1 + erf(z / sqrt 2)) / 2, when that probability is positive,
    and minus infinity when it is zero, and then the likelihood is minus
    infinity. *)
Theorem upper_limit_contribution
    (theta obs_wave obs_flux obs_flux_err : list R) (obs_limits : list bool)
    (kappa_interp : list R) (z d : R) (n : Z) (wf tf : option (list (list R)))
    (flux_model : list R) :
  flux theta obs_wave obs_flux kappa_interp z d n wf tf = Ok flux_model ->
  well_formed flux_model obs_flux obs_flux_err obs_limits ->
  Forall (fun e => e <> 0) obs_flux_err ->
  loglike theta obs_wave obs_flux obs_flux_err obs_limits kappa_interp z d n
    wf tf
  = Ok (limits_loglike sp_erf flux_model obs_flux obs_flux_err obs_limits
          (Finite (gaussian_loglike flux_model obs_flux obs_flux_err
                     obs_limits))) /\
  (forall m o e : R,
     e <> 0 ->
     limit_prob sp_erf m o e = 1 / 2 * (1 + sp_erf ((m - o) / e / sqrt 2))) /\
  (forall p : R, 0 < p -> limit_term p = Finite (ln p)) /\
  (forall p : R, p = 0 -> limit_term p = NegInf) /\
  (forall (j : nat) (m o e : R),
     nth_error obs_limits j = Some true ->
     nth_error flux_model j = Some m ->
     nth_error obs_flux j = Some o ->
     nth_error obs_flux_err j = Some e ->
     limit_prob sp_erf m o e = 0 ->
     loglike theta obs_wave obs_flux obs_flux_err obs_limits kappa_interp z d
       n wf tf = Ok NegInf).
Proof.
  intros Hflux Hwf Herr.
  assert (E := log_likelihood_of_flux theta obs_wave obs_flux obs_flux_err
                 obs_limits kappa_interp z d n wf tf flux_model Hflux).
  rewrite likelihood_decomposition in E by exact Hwf.
  split; [exact E|]. split; [reflexivity|].
  split; [exact limit_term_positive|].
  split; [intros p ->; apply limit_term_not_positive; lra|].
  intros j m o e Hl Hm Ho He Hp. rewrite E. f_equal.
  eapply limits_loglike_zero_prob; eauto.
Qed.


(** C7: when the log-prior is finite the log-probability is the log-prior
    plus the log-likelihood; when it is not, the log-probability is minus
    infinity whatever the likelihood would do, an exception included. *)
Theorem log_probability_short_circuit
    (theta obs_wave obs_flux obs_flux_err : list R) (obs_limits : list bool)
    (kappa_interp : list R) (z d : R) (n : Z) (wf tf : option (list (list R)))
    (lp : float) :
  log_prior theta n = Ok lp ->
  (isfinite lp = true ->
   logprob theta obs_wave obs_flux obs_flux_err obs_limits kappa_interp z d n
     wf tf
   = (ll <- loglike theta obs_wave obs_flux obs_flux_err obs_limits
              kappa_interp z d n wf tf ;;
      Ok (fadd lp ll))) /\
  (isfinite lp = false ->
   logprob theta obs_wave obs_flux obs_flux_err obs_limits kappa_interp z d n
     wf tf
   = Ok NegInf).
Proof.
  intros Hlp. unfold logprob, log_probability. rewrite Hlp. cbn [bind].
  split; intros ->; reflexivity.
Qed.

End LikelihoodTheorems.

(* ================================================================== *)
(** * Concrete runs of the likelihood and the posterior                *)
(* ================================================================== *)

Lemma clipped_erf_low (x : R) : x <= -1 -> clipped_erf x = -1.
Proof.
  intros H. unfold clipped_erf.
  rewrite Rmin_right by lra. apply Rmax_left. lra.
Qed.

Lemma clipped_erf_zero : clipped_erf 0 = 0.
Proof.
  unfold clipped_erf. rewrite Rmin_right by lra. apply Rmax_right. lra.
Qed.

Lemma sqrt2_bounds : 1 < sqrt 2 < 2.
Proof.
  assert (H := sqrt_def 2 ltac:(lra)).
  assert (P := sqrt_pos 2).
  split; nra.
Qed.

Lemma ten_sigma_below : (0 - 10) / 1 / sqrt 2 <= -1.
Proof.
  destruct sqrt2_bounds as [H1 H2].
  replace ((0 - 10) / 1 / sqrt 2) with (- (10 / sqrt 2)) by (field; lra).
  assert (1 <= 10 / sqrt 2); [|lra].
  apply Rmult_le_reg_r with (sqrt 2); [lra|].
  unfold Rdiv. rewrite Rmult_assoc, Rinv_l by lra. lra.
Qed.

(** A dark body at any temperature gives no flux. *)
Lemma dark_model_flux (obs_flux : list R) :
  model_flux dark_body unit_distance no_coefficients no_interpolation
    no_filter_flux [0; 100] [10] obs_flux [1] 0 1 1%Z None None = Ok [0].
Proof.
  unfold model_flux, calc_model_flux, calc_luminosity, dark_body.
  cbn [Z.eqb Pos.eqb length Nat.eqb negb map map2 combine fst snd bind].
  simpl String.eqb. cbv iota. cbn [bind].
  rewrite calc_flux_per_Hz. unfold to_output. simpl String.eqb. cbv iota.
  cbn [map bind]. do 2 f_equal. unfold Rdiv. ring.
Qed.

Lemma upper_limit_contribution_witness :
  log_likelihood dark_body unit_distance no_coefficients no_interpolation
    no_filter_flux clipped_erf [0; 100] [10] [10] [1] [true] [1] 0 1 1%Z
    None None = Ok NegInf.
Proof.
  refine (proj2 (proj2 (proj2 (proj2
    (upper_limit_contribution dark_body unit_distance no_coefficients
       no_interpolation no_filter_flux clipped_erf
       [0; 100] [10] [10] [1] [true] [1] 0 1 1%Z None None [0]
       (dark_model_flux [10]) _ _)))) 0%nat 0 10 1 eq_refl eq_refl eq_refl
       eq_refl _).
  - repeat split.
  - repeat constructor. lra.
  - unfold limit_prob. rewrite clipped_erf_low by exact ten_sigma_below. lra.
Defined.


(** The likelihood raises on an opacity grid of the wrong length. *)
Lemma log_likelihood_raises :
  log_likelihood dark_body unit_distance no_coefficients no_interpolation
    no_filter_flux clipped_erf [0; 500; 0; 100] [10] [10] [1] [true] [] 0 1 2%Z
    None None = Raise ValueError.
Proof. reflexivity. Qed.

Lemma log_prior_cold_above_hot : log_prior [0; 500; 0; 100] 2 = Ok NegInf.
Proof.
  unfold log_prior, between, Rgtb. simpl. decide_Rltb. reflexivity.
Qed.

Lemma log_prior_inside : log_prior [0; 100] 1 = Ok (Finite 0).
Proof.
  unfold log_prior, between. simpl. decide_Rltb. reflexivity.
Qed.

Lemma log_probability_short_circuit_witness :
  log_probability dark_body unit_distance no_coefficients no_interpolation
    no_filter_flux clipped_erf [0; 500; 0; 100] [10] [10] [1] [true] [] 0 1 2%Z
    None None = Ok NegInf /\
  log_probability dark_body unit_distance no_coefficients no_interpolation
    no_filter_flux clipped_erf [0; 100] [10] [10] [1] [true] [1] 0 1 1%Z
    None None
  = (ll <- log_likelihood dark_body unit_distance no_coefficients
             no_interpolation no_filter_flux clipped_erf [0; 100] [10] [10] [1]
             [true] [1] 0 1 1%Z None None ;;
     Ok (fadd (Finite 0) ll)).
Proof.
  split.
  - apply (proj2 (log_probability_short_circuit dark_body unit_distance
             no_coefficients no_interpolation no_filter_flux clipped_erf
             [0; 500; 0; 100] [10] [10] [1] [true] [] 0 1 2%Z None None NegInf
             log_prior_cold_above_hot)).
    reflexivity.
  - apply (proj1 (log_probability_short_circuit dark_body unit_distance
             no_coefficients no_interpolation no_filter_flux clipped_erf
             [0; 100] [10] [10] [1] [true] [1] 0 1 1%Z None None (Finite 0)
             log_prior_inside)).
    reflexivity.
Defined.

(* ================================================================== *)
(** * The direction of the upper-limit term                            *)
(* ================================================================== *)

Lemma fle_refl (x : float) : fle x x.
Proof. destruct x; simpl; auto. lra. Qed.

Lemma fadd_mono (a a' b b' : float) :
  fle a a' -> fle b b' -> fle (fadd a b) (fadd a' b').
Proof.
  destruct a, a', b, b'; simpl; intros; auto; try contradiction. lra.
Qed.

Lemma limit_term_mono (p p' : R) : p <= p' -> fle (limit_term p) (limit_term p').
Proof.
  intros H. unfold limit_term, Rgtb, Rltb.
  destruct (Rlt_dec 0 p), (Rlt_dec 0 p'); simpl; auto; try lra.
  destruct (Rle_lt_or_eq_dec _ _ H) as [Hlt | ->]; [|lra].
  left. apply ln_increasing; assumption.
Qed.

Section Direction.

Variable sp_erf : R -> R.
Hypothesis erf_monotone : forall x y : R, x <= y -> sp_erf x <= sp_erf y.

Lemma limit_prob_antitone (m o o' e : R) :
  0 < e -> o <= o' -> limit_prob sp_erf m o' e <= limit_prob sp_erf m o e.
Proof.
  intros He Ho. unfold limit_prob.
  assert (Hs := proj1 sqrt2_bounds).
  assert (Hz : (m - o') / e / sqrt 2 <= (m - o) / e / sqrt 2).
  { unfold Rdiv. apply Rmult_le_compat_r.
    - left. apply Rinv_0_lt_compat. lra.
    - apply Rmult_le_compat_r; [left; apply Rinv_0_lt_compat; lra | lra]. }
  pose proof (erf_monotone _ _ Hz). lra.
Qed.

Lemma limits_loglike_raised (obs_limits : list bool) :
  forall (flux_model obs obs' err : list R) (acc acc' : float),
    well_formed flux_model obs err obs_limits ->
    limits_raised obs obs' obs_limits ->
    Forall (fun e => 0 < e) err ->
    fle acc' acc ->
    fle (limits_loglike sp_erf flux_model obs' err obs_limits acc')
        (limits_loglike sp_erf flux_model obs err obs_limits acc).
Proof.
  induction obs_limits as [|l ls IH];
    intros [|m ms] [|o os] [|o' os'] [|e es] acc acc' (H1 & H2 & H3) Hr He Ha;
    try discriminate; simpl in Hr; try contradiction; simpl; auto.
  destruct Hr as [Hl Hr]. inversion He as [|? ? He0 He']; subst.
  apply IH; auto.
  - simpl in *. repeat split; lia.
  - destruct l; auto. apply fadd_mono; auto.
    apply limit_term_mono. apply limit_prob_antitone; assumption.
Qed.

Lemma gaussian_loglike_raised (obs_limits : list bool) :
  forall (flux_model obs obs' err : list R),
    limits_raised obs obs' obs_limits ->
    gaussian_loglike flux_model obs' err obs_limits =
    gaussian_loglike flux_model obs err obs_limits.
Proof.
  intros flux_model obs obs' err Hr. unfold gaussian_loglike. f_equal.
  f_equal. revert flux_model obs obs' err Hr.
  induction obs_limits as [|l ls IH];
    intros [|m ms] [|o os] [|o' os'] [|e es] Hr;
    simpl in Hr; try contradiction; simpl; auto.
  destruct Hr as [Hl Hr]. rewrite (IH ms os os' es Hr).
  destruct l; [reflexivity | now subst].
Qed.

Lemma limits_raised_length (obs_limits : list bool) :
  forall obs obs' : list R,
    limits_raised obs obs' obs_limits -> length obs' = length obs.
Proof.
  induction obs_limits as [|l ls IH]; intros [|o os] [|o' os'] Hr;
    simpl in Hr; try contradiction; auto.
  simpl. f_equal. apply IH. tauto.
Qed.

(** X12: with a non-decreasing error function and positive uncertainties,
    raising upper limits never increases the likelihood of the code. *)
Lemma raising_limits_never_increases
    (flux_model obs obs' err : list R) (obs_limits : list bool) :
  well_formed flux_model obs err obs_limits ->
  limits_raised obs obs' obs_limits ->
  Forall (fun e => 0 < e) err ->
  exists v v' : float,
    likelihood_of_flux sp_erf flux_model obs err obs_limits = Ok v /\
    likelihood_of_flux sp_erf flux_model obs' err obs_limits = Ok v' /\
    fle v' v.
Proof.
  intros Hwf Hr He.
  assert (Hwf' : well_formed flux_model obs' err obs_limits).
  { destruct Hwf as (H1 & H2 & H3). repeat split; auto.
    rewrite (limits_raised_length _ _ _ Hr). exact H2. }
  rewrite !likelihood_decomposition by assumption.
  do 2 eexists. split; [reflexivity|]. split; [reflexivity|].
  apply limits_loglike_raised; auto.
  rewrite (gaussian_loglike_raised _ _ _ _ _ Hr). apply fle_refl.
Qed.

End Direction.

Section RaisedLimit.

Variable BlackBody : R -> R -> R.
Variable calc_distance : R -> R.
Variable import_coefficients : R -> string -> bool -> list R * list R.
Variable interpolate_kappa : list R -> list R -> list R -> list R.
Variable calc_filter_flux : list R -> list R -> list R -> list R -> R.
Variable sp_erf : R -> R.

Let flux := model_flux BlackBody calc_distance import_coefficients
              interpolate_kappa calc_filter_flux.
Let loglike := log_likelihood BlackBody calc_distance import_coefficients
                 interpolate_kappa calc_filter_flux sp_erf.

(** Without filters the model flux does not read the observed fluxes. *)
Lemma model_flux_ignores_obs_flux (theta obs_wave obs_flux obs_flux' : list R)
    (kappa_interp : list R) (z d : R) (n : Z) :
  flux theta obs_wave obs_flux' kappa_interp z d n None None =
  flux theta obs_wave obs_flux kappa_interp z d n None None.
Proof. reflexivity. Qed.

(** C2 fails on the code.  One detection and one upper limit of
    uncertainty 1 that sits exactly at the model prediction: raising the
    limit by 1 strictly lowers the likelihood, for every error function
    that increases from -1/sqrt 2 to 0 and is above -1 at 0. *)
Theorem raised_limit_lowers_likelihood
    (theta obs_wave kappa_interp : list R) (z d : R) (n : Z)
    (m1 m2 o1 s1 : R) :
  -1 < sp_erf 0 ->
  sp_erf (-1 / sqrt 2) < sp_erf 0 ->
  flux theta obs_wave [o1; m2] kappa_interp z d n None None = Ok [m1; m2] ->
  exists v v' : float,
    loglike theta obs_wave [o1; m2] [s1; 1] [false; true] kappa_interp z d n
      None None = Ok v /\
    loglike theta obs_wave [o1; m2 + 1] [s1; 1] [false; true] kappa_interp z d
      n None None = Ok v' /\
    flt v' v.
Proof.
  intros Hpos Hlt Hflux.
  assert (Hs := proj1 sqrt2_bounds).
  assert (E : loglike theta obs_wave [o1; m2] [s1; 1] [false; true]
                kappa_interp z d n None None
              = likelihood_of_flux sp_erf [m1; m2] [o1; m2] [s1; 1]
                  [false; true]).
  { unfold loglike, log_likelihood. fold flux. now rewrite Hflux. }
  assert (E' : loglike theta obs_wave [o1; m2 + 1] [s1; 1] [false; true]
                 kappa_interp z d n None None
               = likelihood_of_flux sp_erf [m1; m2] [o1; m2 + 1] [s1; 1]
                   [false; true]).
  { unfold loglike, log_likelihood. fold flux.
    rewrite (model_flux_ignores_obs_flux theta obs_wave [o1; m2]).
    now rewrite Hflux. }
  rewrite E, E'.
  rewrite !likelihood_decomposition by (repeat split).
  do 2 eexists. split; [reflexivity|]. split; [reflexivity|].
  assert (G : gaussian_loglike [m1; m2] [o1; m2 + 1] [s1; 1] [false; true]
              = gaussian_loglike [m1; m2] [o1; m2] [s1; 1] [false; true])
    by reflexivity.
  rewrite G. cbn [limits_loglike]. unfold limit_prob.
  replace ((m2 - m2) / 1 / sqrt 2) with 0 by (field; lra).
  replace ((m2 - (m2 + 1)) / 1 / sqrt 2) with (-1 / sqrt 2) by (field; lra).
  rewrite (limit_term_positive (1 / 2 * (1 + sp_erf 0))) by lra.
  destruct (Rlt_dec 0 (1 / 2 * (1 + sp_erf (-1 / sqrt 2)))) as [Hp | Hn].
  - rewrite limit_term_positive by exact Hp. simpl.
    apply Rplus_lt_compat_l. apply ln_increasing; lra.
  - rewrite limit_term_not_positive by lra. exact I.
Qed.

End RaisedLimit.

(** A dark body observed at two wavelengths. *)
Lemma dark_model_flux_two (obs_flux : list R) :
  model_flux dark_body unit_distance no_coefficients no_interpolation
    no_filter_flux [0; 100] [10; 20] obs_flux [1; 1] 0 1 1%Z None None
  = Ok [0; 0].
Proof.
  unfold model_flux, calc_model_flux, calc_luminosity, dark_body.
  cbn [Z.eqb Pos.eqb length Nat.eqb negb map map2 combine fst snd bind].
  simpl String.eqb. cbv iota. cbn [bind].
  rewrite calc_flux_per_Hz. unfold to_output. simpl String.eqb. cbv iota.
  cbn [map bind]. f_equal. f_equal; [|f_equal]; unfold Rdiv; ring.
Qed.

Lemma clipped_erf_inside (x : R) : -1 <= x <= 1 -> clipped_erf x = x.
Proof.
  intros H. unfold clipped_erf.
  rewrite Rmin_right by lra. apply Rmax_right. lra.
Qed.

Lemma minus_inv_sqrt2_bounds : -1 < -1 / sqrt 2 < 0.
Proof.
  destruct sqrt2_bounds as [H1 H2].
  assert (H : 0 < / sqrt 2 < 1).
  { split; [apply Rinv_0_lt_compat; lra|].
    rewrite <- Rinv_1. apply Rinv_lt_contravar; lra. }
  unfold Rdiv. lra.
Qed.

Lemma raised_limit_lowers_likelihood_witness :
  exists v v' : float,
    log_likelihood dark_body unit_distance no_coefficients no_interpolation
      no_filter_flux clipped_erf [0; 100] [10; 20] [0; 0] [1; 1] [false; true]
      [1; 1] 0 1 1%Z None None = Ok v /\
    log_likelihood dark_body unit_distance no_coefficients no_interpolation
      no_filter_flux clipped_erf [0; 100] [10; 20] [0; 0 + 1] [1; 1]
      [false; true] [1; 1] 0 1 1%Z None None = Ok v' /\
    flt v' v.
Proof.
  apply (raised_limit_lowers_likelihood dark_body unit_distance no_coefficients
           no_interpolation no_filter_flux clipped_erf
           [0; 100] [10; 20] [1; 1] 0 1 1%Z 0 0 0 1).
  - rewrite clipped_erf_zero. lra.
  - rewrite clipped_erf_zero.
    rewrite clipped_erf_inside; destruct minus_inv_sqrt2_bounds; lra.
  - apply dark_model_flux_two.
Defined.

(* ================================================================== *)
(** * The initial positions                                            *)
(* ================================================================== *)

Lemma Forall_firstn {A : Type} (P : A -> Prop) (n : nat) (l : list A) :
  Forall P l -> Forall P (firstn n l).
Proof.
  intros H. rewrite <- (firstn_skipn n l) in H.
  apply Forall_app in H. tauto.
Qed.

Lemma selected_by_prior (n_components : Z) (pos_in : list (list R)) :
  forall (mask : list bool) (pos : list (list R)),
    prior_mask pos_in n_components = Ok mask ->
    mask_index pos_in mask = Ok pos ->
    Forall (finite_prior n_components) pos.
Proof.
  induction pos_in as [|p rest IH]; intros mask pos Hm Hs.
  - simpl in Hm. injection Hm as <-. simpl in Hs. injection Hs as <-.
    constructor.
  - simpl in Hm.
    destruct (log_prior p n_components) as [lp|] eqn:Elp; [|discriminate].
    simpl in Hm.
    destruct (prior_mask rest n_components) as [mask'|] eqn:Em; [|discriminate].
    simpl in Hm. injection Hm as <-. simpl in Hs.
    destruct (mask_index rest mask') as [pos'|] eqn:Es; [|discriminate].
    simpl in Hs. injection Hs as <-.
    specialize (IH mask' pos' eq_refl Es).
    destruct (isfinite lp) eqn:Ef; auto.
    constructor; auto. exists lp. auto.
Qed.

Lemma fill_loop_invariant (n_components : Z) (n_walkers : nat)
    (pos_in : list (list R)) (fuel : nat) :
  forall pos_out pos_out' : list (list R),
    fill_loop fuel pos_in n_components n_walkers pos_out = Some (Ok pos_out') ->
    (n_walkers <= length pos_out')%nat /\
    exists extra : list (list R),
      pos_out' = pos_out ++ extra /\ Forall (finite_prior n_components) extra.
Proof.
  induction fuel as [|fuel IH]; intros pos_out pos_out' H; simpl in H.
  - destruct (length pos_out <? n_walkers)%nat eqn:E; [discriminate|].
    injection H as <-. apply Nat.ltb_ge in E. split; [exact E|].
    exists []. rewrite app_nil_r. auto.
  - destruct (length pos_out <? n_walkers)%nat eqn:E.
    + destruct (prior_mask pos_in n_components) as [mask|] eqn:Em;
        simpl in H; [|discriminate].
      destruct (mask_index pos_in mask) as [pos|] eqn:Es; [|discriminate].
      destruct (IH _ _ H) as (Hlen & extra & -> & Hextra).
      split; [exact Hlen|].
      exists (pos ++ extra). rewrite app_assoc. split; [reflexivity|].
      apply Forall_app. split; [|exact Hextra].
      eapply selected_by_prior; eauto.
    + injection H as <-. apply Nat.ltb_ge in E. split; [exact E|].
      exists []. rewrite app_nil_r. auto.
Qed.

(** X14: what the assembly does guarantee: exactly [n_walkers] positions, all
    of finite prior except possibly the first. *)
Lemma assemble_positions_tail (fuel : nat) (pos_in : list (list R))
    (n_components : Z) (n_walkers : nat) (pos : list (list R)) :
  assemble_positions fuel pos_in n_components n_walkers = Some (Ok pos) ->
  length pos = n_walkers /\ Forall (finite_prior n_components) (tl pos).
Proof.
  unfold assemble_positions.
  destruct (fill_loop fuel pos_in n_components n_walkers (firstn 1 pos_in))
    as [[pos_out|e]|] eqn:E; try discriminate.
  destruct (fill_loop_invariant _ _ _ _ _ _ E) as (Hlen & extra & -> & Hextra).
  assert (Htl : Forall (finite_prior n_components)
                  (skipn 1 (firstn 1 pos_in ++ extra))).
  { destruct pos_in as [|p rest]; simpl; [|exact Hextra].
    destruct extra; simpl; auto. now inversion Hextra. }
  set (l := firstn 1 pos_in ++ extra) in *. clearbody l.
  destruct (length l =? n_walkers)%nat eqn:En; cbn [negb]; intros H.
  - assert (pos = l) by congruence. subst pos.
    apply Nat.eqb_eq in En. split; [exact En|].
    destruct l; [constructor | exact Htl].
  - assert (pos = firstn n_walkers (skipn 1 l)) by congruence. subst pos.
    apply Nat.eqb_neq in En. split.
    + rewrite length_firstn, length_skipn. lia.
    + destruct n_walkers; [constructor|].
      destruct (skipn 1 l) as [|q qs] eqn:Eq; [constructor|].
      cbn [firstn tl]. inversion Htl as [|? ? _ Hqs]; subst.
      apply Forall_firstn. exact Hqs.
Qed.

Lemma log_prior_hot_above_cold : log_prior [0; 100; 0; 500] 2 = Ok (Finite 0).
Proof.
  unfold log_prior, between, Rgtb. simpl. decide_Rltb. reflexivity.
Qed.

(** C4 fails on the code.  With two walkers and two components, a draw
    whose first sample has the hot temperature below the cold one and whose
    second sample is valid is handed to the sampler as it is: the first
    position has a log-prior of minus infinity. *)
Theorem initial_positions_keep_invalid_first :
  assemble_positions 1 [[0; 500; 0; 100]; [0; 100; 0; 500]] 2 2
    = Some (Ok [[0; 500; 0; 100]; [0; 100; 0; 500]]) /\
  log_prior [0; 500; 0; 100] 2 = Ok NegInf /\
  ~ finite_prior 2 [0; 500; 0; 100].
Proof.
  split; [|split].
  - unfold assemble_positions. cbn [firstn fill_loop length Nat.ltb Nat.leb].
    cbn [prior_mask]. rewrite log_prior_cold_above_hot, log_prior_hot_above_cold.
    reflexivity.
  - exact log_prior_cold_above_hot.
  - intros (lp & H & Hf). rewrite log_prior_cold_above_hot in H.
    injection H as <-. discriminate.
Qed.

(* ================================================================== *)
(** * Sigma clipping when every walker is an outlier                   *)
(* ================================================================== *)

Lemma where_from_nil (mask : list bool) (i : nat) :
  where_from i mask = [] -> Forall (fun b => b = false) mask.
Proof.
  revert i. induction mask as [|b rest IH]; intros i H; [constructor|].
  simpl in H. destruct b; [discriminate|].
  constructor; [reflexivity | eapply IH; exact H].
Qed.

Section AllOutliers.

Variable rng : Type.
Variable choice_position : rng -> nat -> nat * rng.
Variable random_normal : rng -> R -> R -> R * rng.
Variable np_median : list R -> R.
Variable np_std : list R -> R.
Variable sampler : Type.
Variable run_mcmc : sampler -> list (list R) -> Z -> sampler.
Variable chain_last : sampler -> list (list (option R)).

Lemma replace_invalid_length (source : list (list (option R)))
    (valid_indices : list nat) (n_dim : nat) :
  forall (rows : list (list (option R))) (g g' : rng) (pos : list (list R)),
    replace_invalid rng choice_position random_normal g source valid_indices
      n_dim rows = Ok (pos, g') ->
    length pos = length rows.
Proof.
  induction rows as [|row rest IH]; intros g g' pos H; simpl in H.
  - injection H as <- _. reflexivity.
  - destruct (finite_row row).
    + destruct (replace_invalid _ _ _ _ _ _ _ rest) as [[others g1]|] eqn:E;
        simpl in H; [|discriminate].
      injection H as <- _. simpl. f_equal. eapply IH; eauto.
    + destruct (random_choice _ _ _ _) as [[valid_idx g1]|]; simpl in H;
        [|discriminate].
      destruct (normal_vector _ _ _ _ _) as [noise g2].
      destruct (replace_invalid _ _ _ _ _ _ _ rest) as [[others g3]|] eqn:E;
        simpl in H; [|discriminate].
      injection H as <- _. simpl. f_equal. eapply IH; eauto.
Qed.

Lemma replace_outliers_none_valid (g : rng) (last_pos : list (list R))
    (stds : list R) (sigma_clip : R) (flags : list bool)
    (row : list R) (rows : list (list R)) :
  Forall (fun b => b = false) flags ->
  length flags = S (length rows) ->
  replace_outliers rng choice_position random_normal g last_pos [] stds
    sigma_clip flags (row :: rows) = Raise ValueError.
Proof.
  intros Hf Hl. destruct flags as [|b flags]; [discriminate|].
  inversion Hf; subst. reflexivity.
Qed.

(** C10: in a check of the ensemble in which the finite walkers are all
    flagged as outliers, so that no non-outlier walker survives, the
    repair raises [ValueError] (the choice from an empty index set), and
    so does the whole clipping loop: no further run is started. *)
Theorem all_outliers_raise (g g' : rng) (last_pos : list (list (option R)))
    (pos : list (list R)) (n_walkers n_dim : nat) (sigma_clip : R) :
  (0 < n_walkers)%nat ->
  length last_pos = n_walkers ->
  replace_invalid rng choice_position random_normal g last_pos
    (np_where (map negb (invalid_mask last_pos))) n_dim last_pos
    = Ok (pos, g') ->
  np_where
    (valid_walkers pos
       (map (fun d => np_median (column pos d)) (seq 0 n_dim))
       (map (fun s => Rmax s (1 / 10 ^ 10))
          (map (fun d => np_std (column pos d)) (seq 0 n_dim)))
       sigma_clip) = [] ->
  check_and_repair rng choice_position random_normal np_median np_std
    g last_pos n_walkers n_dim sigma_clip = Raise ValueError /\
  forall (s : sampler) (cycles : nat) (n_steps : Z),
    chain_last s = last_pos ->
    clipping_loop rng choice_position random_normal np_median np_std
      sampler run_mcmc chain_last (S cycles) s g n_walkers n_dim n_steps
      sigma_clip = Raise ValueError.
Proof.
  intros Hn Hlen Hfix Hnone.
  assert (E : check_and_repair rng choice_position random_normal np_median
                np_std g last_pos n_walkers n_dim sigma_clip
              = Raise ValueError).
  { unfold check_and_repair. rewrite Hfix. cbn [bind]. rewrite Hnone.
    cbn [length].
    replace (0 <? n_walkers)%nat with true
      by (symmetry; apply Nat.ltb_lt; exact Hn).
    pose proof (replace_invalid_length _ _ _ _ _ _ _ Hfix) as Hp.
    destruct pos as [|row rows]; [simpl in Hp; lia|].
    apply replace_outliers_none_valid.
    - apply (where_from_nil _ 0%nat). exact Hnone.
    - unfold valid_walkers. rewrite length_map. reflexivity. }
  split; [exact E|].
  intros s cycles n_steps Hs. cbn [clipping_loop]. rewrite Hs, E. reflexivity.
Qed.

End AllOutliers.

(** Two walkers in one dimension at -1 and 1, of median 0 and standard
    deviation 1, clipped at one sigma: both are outliers. *)
Lemma all_outliers_raise_witness :
  check_and_repair Datatypes.unit (fun g _ => (0%nat, g)) (fun g _ _ => (0, g))
    (fun _ => 0) (fun _ => 1) tt [[Some (-1)]; [Some 1]] 2 1 1
  = Raise ValueError.
Proof.
  refine (proj1 (all_outliers_raise Datatypes.unit (fun g _ => (0%nat, g))
                   (fun g _ _ => (0, g)) (fun _ => 0) (fun _ => 1)
                   Datatypes.unit (fun s _ _ => s) (fun _ => [[Some (-1)]; [Some 1]])
                   tt tt [[Some (-1)]; [Some 1]] [[-1]; [1]] 2 1 1
                   _ eq_refl eq_refl _)).
  - lia.
  - unfold valid_walkers, map2, column. cbn [map seq combine fst snd nth forallb].
    rewrite Rmax_left by lra.
    replace (-1 - 0) with (-1) by ring. replace (1 - 0) with 1 by ring.
    replace (Rabs (-1)) with 1
      by (rewrite <- Rabs_Ropp; replace (- -1) with 1 by ring;
          symmetry; apply Rabs_R1).
    rewrite Rabs_R1. decide_Rltb. reflexivity.
Defined.

(* ================================================================== *)
(** * The result summary                                               *)
(* ================================================================== *)

(** [a[-k:]] keeps the last [k] entries when [0 < k <= len(a)]. *)
Lemma slice_from_last {A : Type} (k : Z) (a : list A) :
  (0 < k <= Z.of_nat (length a))%Z ->
  slice_from (- k) a = skipn (length a - Z.to_nat k) a /\
  length (slice_from (- k) a) = Z.to_nat k.
Proof.
  intros H. unfold slice_from.
  replace (0 <=? - k)%Z with false by (symmetry; apply Z.leb_gt; lia).
  replace (Z.to_nat (Z.of_nat (length a) + - k)) with (length a - Z.to_nat k)%nat
    by lia.
  split; [reflexivity|]. rewrite length_skipn. lia.
Qed.

(** [a[-0:]] is the whole array. *)
Lemma slice_from_zero {A : Type} (a : list A) : slice_from (- 0) a = a.
Proof. reflexivity. Qed.

Lemma int_of_float_small (x : R) : 0 <= x < 1 -> int_of_float x = 0%Z.
Proof.
  intros H. unfold int_of_float.
  destruct (Rle_dec 0 x) as [_|Hn]; [|lra].
  symmetry. apply Int_part_spec. simpl. lra.
Qed.

Lemma int_of_float_IZR (k : Z) : (0 <= k)%Z -> int_of_float (IZR k) = k.
Proof.
  intros H. unfold int_of_float.
  destruct (Rle_dec 0 (IZR k)) as [_|Hn].
  - symmetry. apply Int_part_spec. lra.
  - exfalso. apply Hn. apply IZR_le in H. exact H.
Qed.

Section SummaryFacts.

Variable np_percentile : list R -> R -> R.

(** With more than one run, the last [n_steps] steps of every walker are
    retained. *)
Lemma samples_crop_repeats (chain : list (list (list R))) (n_steps : Z)
    (burn_in : R) (repeats : Z) :
  (1 < repeats)%Z ->
  Forall (fun walker => (0 < n_steps <= Z.of_nat (length walker))%Z) chain ->
  samples_crop chain n_steps burn_in repeats =
  concat (map (fun walker => skipn (length walker - Z.to_nat n_steps) walker)
            chain).
Proof.
  intros Hr Hc. unfold samples_crop.
  replace (repeats >? 1)%Z with true by (symmetry; apply Z.gtb_lt; lia).
  f_equal. apply map_ext_in. intros w Hw.
  apply slice_from_last. exact (proj1 (Forall_forall _ _) Hc w Hw).
Qed.

(** With a single run, the last [int(n_steps * (1 - burn_in))] steps are
    retained when that count is positive. *)
Lemma samples_crop_burn_in (chain : list (list (list R))) (n_steps : Z)
    (burn_in : R) (repeats : Z) :
  (repeats <= 1)%Z ->
  let kept := int_of_float (IZR n_steps * (1 - burn_in)) in
  Forall (fun walker => (0 < kept <= Z.of_nat (length walker))%Z) chain ->
  samples_crop chain n_steps burn_in repeats =
  concat (map (fun walker => skipn (length walker - Z.to_nat kept) walker)
            chain).
Proof.
  intros Hr kept Hc. unfold samples_crop.
  replace (repeats >? 1)%Z with false
    by (symmetry; rewrite Z.gtb_ltb; apply Z.ltb_ge; lia).
  f_equal. apply map_ext_in. intros w Hw.
  apply slice_from_last. exact (proj1 (Forall_forall _ _) Hc w Hw).
Qed.

(** Every entry of the summary is (p50, p84.13 - p50, p50 - p15.87). *)
Lemma interval_percentiles (samples : list R) :
  interval np_percentile samples =
  (np_percentile samples 50,
   np_percentile samples (8413 / 100) - np_percentile samples 50,
   np_percentile samples 50 - np_percentile samples (1587 / 100)).
Proof. reflexivity. Qed.

End SummaryFacts.

(** C9 fails on the code.  A single run of 3 steps with a burn-in of 3/4:
    [int(3 * (1 - 3/4))] is 0 and [chain[:, -0:]] is the whole chain, so
    all three steps are retained and nothing is discarded. *)
Theorem burn_in_discards_nothing :
  int_of_float (IZR 3 * (1 - 3 / 4)) = 0%Z /\
  samples_crop [[[1; 100]; [2; 200]; [3; 300]]] 3 (3 / 4) 1
    = [[1; 100]; [2; 200]; [3; 300]].
Proof.
  assert (E : int_of_float (IZR 3 * (1 - 3 / 4)) = 0%Z)
    by (apply int_of_float_small; lra).
  split; [exact E|].
  unfold samples_crop. simpl Z.gtb. cbv iota. rewrite E.
  reflexivity.
Qed.

(* ================================================================== *)
(** * More on the physical model                                       *)
(* ================================================================== *)

Lemma map2_as_map {A B C : Type} (f : A -> B -> C) (a : list A) (b : list B) :
  map2 f a b = map (fun p => f (fst p) (snd p)) (combine a b).
Proof. reflexivity. Qed.

Lemma combine_map_r {A B C : Type} (f : B -> C) (a : list A) (b : list B) :
  combine a (map f b) = map (fun p => (fst p, f (snd p))) (combine a b).
Proof.
  revert b. induction a as [|x a IH]; intros [|y b]; simpl; auto.
  now rewrite IH.
Qed.

Lemma combine_swap_map {A B C : Type} (f : A -> B -> C) (a : list A) (b : list B) :
  map (fun p => f (snd p) (fst p)) (combine b a) =
  map (fun p => f (fst p) (snd p)) (combine a b).
Proof.
  revert b. induction a as [|x a IH]; intros [|y b]; simpl; auto.
  now rewrite IH.
Qed.

Section PhysicalModelFacts.

Variable BlackBody : R -> R -> R.
Variable calc_distance : R -> R.
Variable import_coefficients : R -> string -> bool -> list R * list R.
Variable interpolate_kappa : list R -> list R -> list R -> list R.
Variable calc_filter_flux : list R -> list R -> list R -> list R -> R.

Let flux := model_flux BlackBody calc_distance import_coefficients
              interpolate_kappa calc_filter_flux.

(** The flux of one component at given dust mass, before any filter. *)
Lemma one_component_unfold (dust_mass t : R) (obs_wave kappa_interp : list R)
    (z d : R) :
  calc_model_flux BlackBody calc_distance import_coefficients interpolate_kappa
    obs_wave dust_mass t z (Some d) None None (Some kappa_interp) (1 / 10)
    "carbon" false
  = if (length obs_wave =? length kappa_interp)%nat
    then Ok (map (fun p =>
                    dust_mass * fst p * BlackBody t (snd p / (1 + z)) * (4 * PI)
                    * Msun_g / (4 * PI * d ^ 2) * (1 + z) * Jy_per_cgs)
                 (combine kappa_interp obs_wave))
    else Raise ValueError.
Proof.
  unfold calc_model_flux, calc_luminosity. rewrite length_map.
  destruct (length obs_wave =? length kappa_interp)%nat; [|reflexivity].
  cbn [negb]. simpl String.eqb. cbv iota. cbn [bind].
  rewrite calc_flux_per_Hz. unfold to_output. simpl String.eqb. cbv iota.
  f_equal. rewrite map2_as_map, !map_map, !combine_map_r, !map_map.
  reflexivity.
Qed.

(** X1: when the one-component model flux is returned, for a non-zero
    distance, it is, per wavelength, 10^log_mass * Msun * kappa *
    B(T, wave/(1+z)) * (1+z) / distance^2 * 10^23 in Jy: the 4 pi of the
    luminosity cancels that of the dilution. *)
Theorem one_component_closed_form (log_mass t : R)
    (obs_wave obs_flux kappa_interp : list R) (z d : R) (f : list R) :
  flux [log_mass; t] obs_wave obs_flux kappa_interp z d 1%Z None None = Ok f ->
  d <> 0 ->
  f = map2 (fun w k =>
              Rpower 10 log_mass * Msun_g * k * BlackBody t (w / (1 + z))
              * (1 + z) / d ^ 2 * Jy_per_cgs)
           obs_wave kappa_interp.
Proof.
  intros Hf Hd. unfold flux, model_flux in Hf. simpl Z.eqb in Hf.
  cbv iota in Hf. rewrite one_component_unfold in Hf.
  destruct (length obs_wave =? length kappa_interp)%nat; [|discriminate].
  cbn [bind] in Hf. assert (Hf' := f_equal (fun r => match r with
                                                   | Ok x => x
                                                   | Raise _ => f
                                                   end) Hf).
  cbv beta iota in Hf'. rewrite <- Hf'. clear Hf Hf'.
  rewrite map2_as_map.
  rewrite <- (combine_swap_map
                (fun w k => Rpower 10 log_mass * Msun_g * k
                            * BlackBody t (w / (1 + z)) * (1 + z) / d ^ 2
                            * Jy_per_cgs)).
  apply map_ext. intros [k w]. cbn [fst snd].
  assert (Hpi := PI_RGT_0). field. split; lra.
Qed.

(** X2: the flux is linear in the dust mass: when the model flux is
    returned at a log-mass and at that log-mass plus [delta], the second
    is the first with every value multiplied by 10^delta. *)
Theorem flux_scales_with_mass (log_mass delta t : R)
    (obs_wave obs_flux kappa_interp : list R) (z d : R) (f f' : list R) :
  flux [log_mass; t] obs_wave obs_flux kappa_interp z d 1%Z None None = Ok f ->
  flux [log_mass + delta; t] obs_wave obs_flux kappa_interp z d 1%Z None None
    = Ok f' ->
  f' = map (fun x => Rpower 10 delta * x) f.
Proof.
  unfold flux, model_flux. simpl Z.eqb. cbv iota.
  rewrite !one_component_unfold.
  destruct (length obs_wave =? length kappa_interp)%nat; [|discriminate].
  cbn [bind]. intros Hf Hf'.
  assert (E := f_equal (fun r => match r with Ok x => x | Raise _ => f end) Hf).
  assert (E' := f_equal (fun r => match r with Ok x => x | Raise _ => f' end)
                  Hf').
  cbv beta iota in E, E'. rewrite <- E, <- E'. clear.
  rewrite map_map. apply map_ext. intros [k w].
  cbn [fst snd]. rewrite Rpower_plus. unfold Rdiv. ring.
Qed.

(** X3: without filters the model flux is returned only when the
    parameter vector has the length its component count asks for and the
    opacity grid is as long as the wavelength grid. *)
Theorem model_flux_returns_only_if
    (theta obs_wave obs_flux kappa_interp : list R) (z d : R) (n : Z)
    (f : list R) :
  flux theta obs_wave obs_flux kappa_interp z d n None None = Ok f ->
  well_shaped n theta /\ length obs_wave = length kappa_interp.
Proof.
  unfold flux, model_flux. intros H.
  destruct (n =? 1)%Z eqn:E1; [|destruct (n =? 2)%Z eqn:E2].
  - apply Z.eqb_eq in E1. subst n.
    destruct theta as [|a [|b [|c th]]]; try discriminate.
    rewrite one_component_unfold in H.
    destruct (length obs_wave =? length kappa_interp)%nat eqn:El;
      [|discriminate].
    apply Nat.eqb_eq in El. split; [left; split; reflexivity | exact El].
  - apply Z.eqb_eq in E2. subst n.
    destruct theta as [|a [|b [|c [|e [|e' th]]]]]; try discriminate.
    rewrite !one_component_unfold in H.
    destruct (length obs_wave =? length kappa_interp)%nat eqn:El;
      [|discriminate].
    apply Nat.eqb_eq in El. split; [right; split; reflexivity | exact El].
  - discriminate.
Qed.

End PhysicalModelFacts.

(* ================================================================== *)
(** * The filter loop of [model_flux]                                  *)
(* ================================================================== *)

Lemma set_item_length (a : list R) (i : nat) (v : R) (a' : list R) :
  set_item a i v = Ok a' -> length a' = length a.
Proof.
  unfold set_item. destruct (i <? length a)%nat eqn:E; [|discriminate].
  apply Nat.ltb_lt in E. intros H.
  assert (a' = firstn i a ++ v :: skipn (S i) a) by congruence. subst a'.
  rewrite length_app, length_firstn. cbn [length]. rewrite length_skipn. lia.
Qed.

Lemma index_skipn {A : Type} (a : list A) (i : nat) (x : A) :
  index a i = Ok x -> skipn i a = x :: skipn (S i) a.
Proof.
  unfold index. revert i. induction a as [|y a IH]; intros [|i]; simpl;
    try discriminate.
  - now intros [= ->].
  - intros H. now apply IH.
Qed.

Lemma index_in_range {A : Type} (a : list A) (i : nat) :
  (i < length a)%nat -> exists x : A, index a i = Ok x.
Proof.
  intros H. unfold index. destruct (nth_error a i) eqn:E; eauto.
  apply nth_error_None in E. lia.
Qed.

Lemma index_out_of_range {A : Type} (a : list A) (i : nat) :
  (length a <= i)%nat -> index a i = Raise IndexError.
Proof.
  intros H. unfold index. now rewrite (proj2 (nth_error_None a i) H).
Qed.

Section FilterLoop.

Variable BlackBody : R -> R -> R.
Variable calc_distance : R -> R.
Variable import_coefficients : R -> string -> bool -> list R * list R.
Variable interpolate_kappa : list R -> list R -> list R -> list R.
Variable calc_filter_flux : list R -> list R -> list R -> list R -> R.

Let flux := model_flux BlackBody calc_distance import_coefficients
              interpolate_kappa calc_filter_flux.

Lemma filter_loop_fills (obs_wave f : list R) (trans_filters : list (list R)) :
  forall (wave_filters : list (list R)) (i : nat) (acc : list R),
    (i + length wave_filters <= length acc)%nat ->
    (i + length wave_filters <= length trans_filters)%nat ->
    filter_loop calc_filter_flux obs_wave f i wave_filters trans_filters acc =
    Ok (firstn i acc
        ++ map2 (calc_filter_flux obs_wave f) wave_filters (skipn i trans_filters)
        ++ skipn (i + length wave_filters) acc).
Proof.
  induction wave_filters as [|w rest IH]; intros i acc Ha Ht.
  - cbn [filter_loop length map2 combine map app]. rewrite Nat.add_0_r.
    now rewrite firstn_skipn.
  - cbn [length] in Ha, Ht. cbn [filter_loop].
    destruct (index_in_range trans_filters i ltac:(lia)) as [t Et].
    rewrite Et. cbn [bind]. unfold set_item.
    replace (i <? length acc)%nat with true
      by (symmetry; apply Nat.ltb_lt; lia).
    cbn [bind].
    set (v := calc_filter_flux obs_wave f w t).
    set (acc' := firstn i acc ++ v :: skipn (S i) acc).
    assert (Hl : length (firstn i acc) = i) by (rewrite length_firstn; lia).
    assert (Hacc' : length acc' = length acc).
    { unfold acc'. rewrite length_app, Hl. cbn [length].
      rewrite length_skipn. lia. }
    rewrite IH by (rewrite ?Hacc'; lia).
    f_equal. rewrite (index_skipn _ _ _ Et).
    unfold map2. cbn [combine map fst snd]. fold v.
    assert (F : firstn (S i) acc' = firstn i acc ++ [v]).
    { unfold acc'. rewrite firstn_app, Hl.
      replace (S i - i)%nat with 1%nat by lia.
      rewrite firstn_all2 by lia. reflexivity. }
    assert (S' : skipn (S i + length rest) acc'
                 = skipn (i + length (w :: rest)) acc).
    { unfold acc'. rewrite skipn_app, Hl.
      rewrite (skipn_all2 (firstn i acc)) by lia.
      replace (S i + length rest - i)%nat with (S (length rest)) by lia.
      cbn [app]. rewrite skipn_cons, skipn_skipn. cbn [length]. f_equal. lia. }
    rewrite F, S'. rewrite <- app_assoc. reflexivity.
Qed.

Lemma filter_loop_overflow (obs_wave f : list R) (trans_filters : list (list R)) :
  forall (wave_filters : list (list R)) (i : nat) (acc : list R),
    (i <= length acc)%nat -> (i <= length trans_filters)%nat ->
    (length acc < i + length wave_filters)%nat \/
    (length trans_filters < i + length wave_filters)%nat ->
    filter_loop calc_filter_flux obs_wave f i wave_filters trans_filters acc =
    Raise IndexError.
Proof.
  induction wave_filters as [|w rest IH]; intros i acc Hia Hit H.
  - cbn [length] in H. lia.
  - cbn [length] in H. cbn [filter_loop].
    destruct (Nat.lt_ge_cases i (length trans_filters)) as [Ht | Ht].
    + destruct (index_in_range trans_filters i Ht) as [t Et].
      rewrite Et. cbn [bind].
      destruct (set_item acc i (calc_filter_flux obs_wave f w t)) as [acc'|e]
        eqn:Es.
      * cbn [bind]. pose proof (set_item_length _ _ _ _ Es) as Hl.
        unfold set_item in Es.
        destruct (i <? length acc)%nat eqn:El; [|discriminate].
        apply Nat.ltb_lt in El. apply IH; lia.
      * unfold set_item in Es.
        destruct (i <? length acc)%nat; [discriminate|]. now injection Es as <-.
    + now rewrite index_out_of_range.
Qed.

(** X4: with no more filters than observed fluxes, and a transmission
    curve for each, the model flux is the synthetic flux of each filter,
    computed from the unfiltered flux, followed by zeros for the observed
    points that have no filter. *)
Theorem model_flux_through_filters
    (theta obs_wave obs_flux kappa_interp : list R) (z d : R) (n : Z)
    (wave_filters trans_filters : list (list R)) :
  (length wave_filters <= length obs_flux)%nat ->
  (length wave_filters <= length trans_filters)%nat ->
  flux theta obs_wave obs_flux kappa_interp z d n (Some wave_filters)
    (Some trans_filters) =
  (f <- flux theta obs_wave obs_flux kappa_interp z d n None None ;;
   Ok (map2 (calc_filter_flux obs_wave f) wave_filters trans_filters
       ++ repeat 0 (length obs_flux - length wave_filters))).
Proof.
  intros Ho Ht. unfold flux, model_flux.
  match goal with
  | |- bind ?m _ = bind (bind ?m' _) _ => change m' with m; destruct m as [f|e]
  end; [|reflexivity].
  cbn [bind]. rewrite filter_loop_fills by (rewrite ?repeat_length; lia).
  cbn [firstn app skipn plus]. do 2 f_equal.
  remember (length obs_flux) as k eqn:Ek. clear Ek.
  revert k Ho. generalize (length wave_filters) as j.
  induction j as [|j IH]; intros [|k] H; cbn [skipn repeat Nat.sub]; auto;
    try lia.
  apply IH. lia.
Qed.

(** X5: with more filters than observed fluxes, or more filters than
    transmission curves, the model flux raises [IndexError] (once the
    unfiltered flux is computed). *)
Theorem model_flux_too_many_filters
    (theta obs_wave obs_flux kappa_interp : list R) (z d : R) (n : Z)
    (wave_filters trans_filters : list (list R)) :
  (length obs_flux < length wave_filters)%nat \/
  (length trans_filters < length wave_filters)%nat ->
  flux theta obs_wave obs_flux kappa_interp z d n (Some wave_filters)
    (Some trans_filters) =
  (f <- flux theta obs_wave obs_flux kappa_interp z d n None None ;;
   Raise IndexError).
Proof.
  intros H. unfold flux, model_flux.
  match goal with
  | |- bind ?m _ = bind (bind ?m' _) _ => change m' with m; destruct m as [f|e]
  end; [|reflexivity].
  cbn [bind]. apply filter_loop_overflow; rewrite ?repeat_length; lia.
Qed.

End FilterLoop.

(* ================================================================== *)
(** * More on the prior and the posterior                              *)
(* ================================================================== *)

Lemma log_prior_inside_box (theta : list R) (n : Z) :
  in_open_box n theta -> log_prior theta n = Ok (Finite 0).
Proof.
  destruct theta as [|a [|b [|c [|d [|e t]]]]]; simpl; try tauto.
  - intros (-> & Ha & Hb). unfold log_prior. simpl.
    rewrite (proj2 (between_true_iff _ _ _) Ha).
    rewrite (proj2 (between_true_iff _ _ _) Hb). reflexivity.
  - intros (-> & Ha & Hb & Hc & Hd & He). unfold log_prior. simpl.
    rewrite (proj2 (between_true_iff _ _ _) Ha).
    rewrite (proj2 (between_true_iff _ _ _) Hb).
    rewrite (proj2 (between_true_iff _ _ _) Hc).
    rewrite (proj2 (between_true_iff _ _ _) Hd). simpl.
    unfold Rgtb. rewrite (proj2 (Rltb_true_iff _ _) He). reflexivity.
Qed.

(** X7: [log_prior] returns 0 or minus infinity, nothing else, on a
    parameter vector of the length its component count asks for, and raises
    [ValueError] on every other input: a component count other than 1 or 2,
    or a vector of the wrong length. *)
Theorem log_prior_values (theta : list R) (n : Z) :
  (well_shaped n theta ->
   log_prior theta n = Ok (Finite 0) \/ log_prior theta n = Ok NegInf) /\
  (~ well_shaped n theta -> log_prior theta n = Raise ValueError).
Proof.
  unfold well_shaped, log_prior. split.
  - intros [[-> Hl] | [-> Hl]]; simpl.
    + destruct theta as [|a [|b [|c t]]]; try discriminate.
      destruct (_ && _); auto.
    + destruct theta as [|a [|b [|c [|d [|e t]]]]]; try discriminate.
      destruct (_ && _); auto. destruct (Rgtb d b); auto.
  - intros H.
    destruct (n =? 1)%Z eqn:E1; [|destruct (n =? 2)%Z eqn:E2]; auto.
    + apply Z.eqb_eq in E1.
      destruct theta as [|a [|b [|c t]]]; auto.
      exfalso. apply H. left. auto.
    + apply Z.eqb_eq in E2.
      destruct theta as [|a [|b [|c [|d [|e t]]]]]; auto.
      exfalso. apply H. right. auto.
Qed.

Lemma fadd_zero_l (x : float) : fadd (Finite 0) x = x.
Proof. destruct x; simpl; auto. f_equal. ring. Qed.

Section PosteriorFacts.

Variable BlackBody : R -> R -> R.
Variable calc_distance : R -> R.
Variable import_coefficients : R -> string -> bool -> list R * list R.
Variable interpolate_kappa : list R -> list R -> list R -> list R.
Variable calc_filter_flux : list R -> list R -> list R -> list R -> R.
Variable sp_erf : R -> R.

Let flux := model_flux BlackBody calc_distance import_coefficients
              interpolate_kappa calc_filter_flux.
Let loglike := log_likelihood BlackBody calc_distance import_coefficients
                 interpolate_kappa calc_filter_flux sp_erf.
Let logprob := log_probability BlackBody calc_distance import_coefficients
                 interpolate_kappa calc_filter_flux sp_erf.

(** X8: strictly inside the prior box the log-probability is the
    log-likelihood itself, its exceptions included. *)
Theorem log_probability_inside_box
    (theta obs_wave obs_flux obs_flux_err : list R) (obs_limits : list bool)
    (kappa_interp : list R) (z d : R) (n : Z) (wf tf : option (list (list R))) :
  in_open_box n theta ->
  logprob theta obs_wave obs_flux obs_flux_err obs_limits kappa_interp z d n
    wf tf =
  loglike theta obs_wave obs_flux obs_flux_err obs_limits kappa_interp z d n
    wf tf.
Proof.
  intros H. unfold logprob, log_probability.
  rewrite (log_prior_inside_box _ _ H). cbn [bind isfinite negb].
  fold loglike.
  destruct (loglike _ _ _ _ _ _ _ _ _ _ _) as [ll|e]; cbn [bind]; auto.
  now rewrite fadd_zero_l.
Qed.

Lemma residuals_vanish (obs err : list R) :
  np_sum (map2 (fun d s => (d / s) ^ 2) (map2 Rminus obs obs) err) = 0.
Proof.
  revert err. induction obs as [|o obs IH]; intros [|e err]; try reflexivity.
  unfold map2 in *. cbn [combine map fst snd]. rewrite np_sum_cons, IH.
  unfold Rdiv. ring.
Qed.

(** X9: when the model flux equals the observed flux at every point of a
    set of detections, the log-likelihood is exactly the normalisation
    term, -1/2 sum log(2 pi sigma^2). *)
Theorem exact_fit_likelihood
    (theta obs_wave obs_flux obs_flux_err : list R) (obs_limits : list bool)
    (kappa_interp : list R) (z d : R) (n : Z) (wf tf : option (list (list R))) :
  flux theta obs_wave obs_flux kappa_interp z d n wf tf = Ok obs_flux ->
  length obs_flux = length obs_limits ->
  length obs_flux_err = length obs_limits ->
  no_limits obs_limits ->
  loglike theta obs_wave obs_flux obs_flux_err obs_limits kappa_interp z d n
    wf tf =
  Ok (Finite (- (1 / 2) * np_sum (map (fun s => ln (2 * PI * s ^ 2))
                                      obs_flux_err))).
Proof.
  intros Hf H1 H2 Hno.
  assert (Hwf : well_formed obs_flux obs_flux obs_flux_err obs_limits)
    by (repeat split; assumption).
  unfold loglike, log_likelihood. fold flux. rewrite Hf. cbn [bind].
  rewrite likelihood_decomposition by exact Hwf.
  rewrite no_limit_terms by (apply no_limits_any; exact Hno).
  rewrite gaussian_without_limits by assumption.
  unfold pure_gaussian. rewrite residuals_vanish. do 2 f_equal. ring.
Qed.

Lemma limit_term_at_most_zero (p : R) :
  p <= 1 -> fle (limit_term p) (Finite 0).
Proof.
  intros H. unfold limit_term, Rgtb, Rltb.
  destruct (Rlt_dec 0 p) as [Hp|_]; simpl; auto.
  rewrite <- ln_1. destruct (Rle_lt_or_eq_dec _ _ H) as [Hlt | ->]; [|lra].
  left. apply ln_increasing; assumption.
Qed.

Lemma fadd_lowers (acc t : float) : fle t (Finite 0) -> fle (fadd acc t) acc.
Proof. destruct acc, t; simpl; auto. lra. Qed.

Lemma fle_trans (x y w : float) : fle x y -> fle y w -> fle x w.
Proof. destruct x, y, w; simpl; auto; try contradiction. lra. Qed.

Lemma limits_loglike_mono_acc (flux_model obs_flux obs_flux_err : list R)
    (obs_limits : list bool) :
  forall acc acc' : float,
    fle acc acc' ->
    fle (limits_loglike sp_erf flux_model obs_flux obs_flux_err obs_limits acc)
        (limits_loglike sp_erf flux_model obs_flux obs_flux_err obs_limits acc').
Proof.
  revert flux_model obs_flux obs_flux_err.
  induction obs_limits as [|l ls IH]; intros [|m ms] [|o os] [|e es] acc acc' H;
    simpl; auto.
  apply IH. destruct l; auto. apply fadd_mono; [exact H | apply fle_refl].
Qed.

Lemma limits_loglike_lowers (flux_model obs_flux obs_flux_err : list R)
    (obs_limits : list bool) :
  (forall x : R, sp_erf x <= 1) ->
  forall acc : float,
    fle (limits_loglike sp_erf flux_model obs_flux obs_flux_err obs_limits acc)
        acc.
Proof.
  intros Herf. revert flux_model obs_flux obs_flux_err.
  induction obs_limits as [|l ls IH]; intros [|m ms] [|o os] [|e es] acc;
    simpl; try apply fle_refl.
  destruct l; [|apply IH].
  eapply fle_trans; [apply IH|].
  apply fadd_lowers. apply limit_term_at_most_zero.
  unfold limit_prob. specialize (Herf ((m - o) / e / sqrt 2)). lra.
Qed.

(** X10: with an error function that never exceeds 1, upper limits can only
    lower the log-likelihood: on a well-formed observation set it is at
    most the Gaussian log-likelihood of the detections. *)
Theorem upper_limits_only_lower
    (theta obs_wave obs_flux obs_flux_err : list R) (obs_limits : list bool)
    (kappa_interp : list R) (z d : R) (n : Z) (wf tf : option (list (list R)))
    (flux_model : list R) :
  (forall x : R, sp_erf x <= 1) ->
  flux theta obs_wave obs_flux kappa_interp z d n wf tf = Ok flux_model ->
  well_formed flux_model obs_flux obs_flux_err obs_limits ->
  exists v : float,
    loglike theta obs_wave obs_flux obs_flux_err obs_limits kappa_interp z d n
      wf tf = Ok v /\
    fle v (Finite (gaussian_loglike flux_model obs_flux obs_flux_err
                     obs_limits)).
Proof.
  intros Herf Hf Hwf. unfold loglike, log_likelihood. fold flux.
  rewrite Hf. cbn [bind]. rewrite likelihood_decomposition by exact Hwf.
  eexists. split; [reflexivity|]. apply limits_loglike_lowers. exact Herf.
Qed.

Lemma limit_term_finite_iff (p : R) :
  (exists r : R, limit_term p = Finite r) <-> 0 < p.
Proof.
  unfold limit_term, Rgtb, Rltb. destruct (Rlt_dec 0 p); split; intros H;
    eauto; try contradiction. destruct H as [r H]. discriminate.
Qed.

Lemma fadd_finite_iff (a b : float) :
  (exists r : R, fadd a b = Finite r) <->
  (exists x : R, a = Finite x) /\ (exists y : R, b = Finite y).
Proof.
  destruct a, b; simpl; split; intros H; eauto;
    try (destruct H as [r0 H]; discriminate);
    try (destruct H as [[x Hx] [y Hy]]; discriminate).
Qed.

Lemma limits_loglike_finite_iff (obs_limits : list bool) :
  forall (flux_model obs_flux obs_flux_err : list R) (acc : float),
    well_formed flux_model obs_flux obs_flux_err obs_limits ->
    (exists r : R,
       limits_loglike sp_erf flux_model obs_flux obs_flux_err obs_limits acc
       = Finite r) <->
    (exists r0 : R, acc = Finite r0) /\
    limits_all_positive sp_erf flux_model obs_flux obs_flux_err obs_limits.
Proof.
  unfold limits_all_positive.
  induction obs_limits as [|l ls IH];
    intros [|m ms] [|o os] [|e es] acc (H1 & H2 & H3); try discriminate.
  - simpl. split.
    + intros H. split; [exact H|]. intros [|j] ? ? ? Hl; discriminate.
    + tauto.
  - assert (Hwf : well_formed ms os es ls).
    { simpl in *. repeat split; lia. }
    cbn [limits_loglike]. rewrite (IH ms os es _ Hwf). split.
    + intros [Hacc Htail]. destruct l.
      * apply fadd_finite_iff in Hacc. destruct Hacc as [Ha Ht].
        apply limit_term_finite_iff in Ht. split; [exact Ha|].
        intros [|j] m' o' e' Hl Hm Ho He; simpl in *.
        -- injection Hm as <-. injection Ho as <-. injection He as <-.
           exact Ht.
        -- eapply Htail; eauto.
      * split; [exact Hacc|].
        intros [|j] m' o' e' Hl Hm Ho He; simpl in *; [discriminate|].
        eapply Htail; eauto.
    + intros [Hacc Hall]. split.
      * destruct l; [|exact Hacc]. apply fadd_finite_iff. split; [exact Hacc|].
        apply limit_term_finite_iff. apply (Hall 0%nat); reflexivity.
      * intros j m' o' e' Hl Hm Ho He. apply (Hall (S j)); assumption.
Qed.

(** X11: on a well-formed observation set with non-zero uncertainties the
    log-likelihood is finite exactly when every upper limit has a positive
    probability; otherwise it is minus infinity. *)
Theorem likelihood_finite_iff
    (flux_model obs_flux obs_flux_err : list R) (obs_limits : list bool) :
  well_formed flux_model obs_flux obs_flux_err obs_limits ->
  Forall (fun e => e <> 0) obs_flux_err ->
  ((exists r : R,
      likelihood_of_flux sp_erf flux_model obs_flux obs_flux_err obs_limits
      = Ok (Finite r)) <->
   limits_all_positive sp_erf flux_model obs_flux obs_flux_err obs_limits) /\
  (~ limits_all_positive sp_erf flux_model obs_flux obs_flux_err obs_limits ->
   likelihood_of_flux sp_erf flux_model obs_flux obs_flux_err obs_limits
   = Ok NegInf).
Proof.
  intros Hwf Herr. rewrite likelihood_decomposition by exact Hwf.
  pose proof (limits_loglike_finite_iff obs_limits flux_model obs_flux
                obs_flux_err
                (Finite (gaussian_loglike flux_model obs_flux obs_flux_err
                           obs_limits)) Hwf) as Hiff.
  split.
  - split.
    + intros [r H]. apply Hiff. exists r. congruence.
    + intros H. destruct (proj2 Hiff (conj (ex_intro _ _ eq_refl) H)) as [r Hr].
      exists r. now rewrite Hr.
  - intros Hn.
    destruct (limits_loglike sp_erf flux_model obs_flux obs_flux_err obs_limits
                _) as [r|] eqn:E; [|reflexivity].
    exfalso. apply Hn. apply Hiff. eauto.
Qed.

End PosteriorFacts.

(* ================================================================== *)
(** * More on the initial positions                                    *)
(* ================================================================== *)

Lemma select_all_valid (n_components : Z) (pos_in : list (list R)) :
  Forall (finite_prior n_components) pos_in ->
  (mask <- prior_mask pos_in n_components ;; mask_index pos_in mask) = Ok pos_in.
Proof.
  induction 1 as [|p rest (lp & Hp & Hf) _ IH]; [reflexivity|].
  cbn [prior_mask]. rewrite Hp. cbn [bind].
  destruct (prior_mask rest n_components) as [mask|]; [|discriminate].
  cbn [bind] in *. cbn [mask_index]. rewrite IH, Hf. reflexivity.
Qed.

Lemma select_none_valid (n_components : Z) (pos_in : list (list R)) :
  Forall (fun p => log_prior p n_components = Ok NegInf) pos_in ->
  (mask <- prior_mask pos_in n_components ;; mask_index pos_in mask) = Ok [].
Proof.
  induction 1 as [|p rest Hp _ IH]; [reflexivity|].
  cbn [prior_mask]. rewrite Hp. cbn [bind].
  destruct (prior_mask rest n_components) as [mask|]; [|discriminate].
  cbn [bind] in *. cbn [mask_index]. rewrite IH. reflexivity.
Qed.

(** X15: when every sample of the draw has a finite prior, and the draw
    has [n_walkers] samples, the positions handed to the sampler are the
    draw itself, after at most one turn of the loop. *)
Theorem all_valid_draw_is_kept (fuel : nat) (pos_in : list (list R))
    (n_components : Z) (n_walkers : nat) :
  Forall (finite_prior n_components) pos_in ->
  length pos_in = n_walkers ->
  assemble_positions (S fuel) pos_in n_components n_walkers = Some (Ok pos_in).
Proof.
  intros Hv Hl. unfold assemble_positions.
  destruct pos_in as [|p0 rest].
  - simpl in Hl. subst n_walkers. reflexivity.
  - cbn [firstn].
    destruct rest as [|p1 rest].
    + simpl in Hl. subst n_walkers. reflexivity.
    + pose proof Hl as Hl'. cbn [length] in Hl'. cbn [fill_loop length].
      replace (1 <? n_walkers)%nat with true
        by (symmetry; apply Nat.ltb_lt; lia).
      rewrite (select_all_valid _ _ Hv).
      assert (Hlen : length ([p0] ++ p0 :: p1 :: rest) = S n_walkers)
        by (simpl in *; lia).
      assert (Hstop : fill_loop fuel (p0 :: p1 :: rest) n_components n_walkers
                        ([p0] ++ p0 :: p1 :: rest)
                      = Some (Ok ([p0] ++ p0 :: p1 :: rest))).
      { destruct fuel; cbn [fill_loop]; rewrite Hlen;
          replace (S n_walkers <? n_walkers)%nat with false
            by (symmetry; apply Nat.ltb_ge; lia); reflexivity. }
      rewrite Hstop, Hlen.
      replace (S n_walkers =? n_walkers)%nat with false
        by (symmetry; apply Nat.eqb_neq; lia).
      cbn [negb app skipn]. rewrite <- Hl.
      now rewrite firstn_all.
Qed.

(** X16: when no sample of the draw has a finite prior and at least two
    walkers are asked for, the loop never ends: it runs out of any fuel. *)
Theorem no_valid_sample_never_ends (fuel : nat) (pos_in : list (list R))
    (n_components : Z) (n_walkers : nat) :
  Forall (fun p => log_prior p n_components = Ok NegInf) pos_in ->
  (2 <= n_walkers)%nat ->
  assemble_positions fuel pos_in n_components n_walkers = None.
Proof.
  intros Hv Hn. unfold assemble_positions.
  assert (Hs : (length (firstn 1 pos_in) < n_walkers)%nat).
  { rewrite length_firstn. lia. }
  generalize dependent (firstn 1 pos_in). intros pos_out Hs.
  assert (H : fill_loop fuel pos_in n_components n_walkers pos_out = None).
  { induction fuel as [|fuel IH]; cbn [fill_loop];
      replace (length pos_out <? n_walkers)%nat with true
        by (symmetry; apply Nat.ltb_lt; exact Hs); [reflexivity|].
    rewrite (select_none_valid _ _ Hv), app_nil_r. exact IH. }
  now rewrite H.
Qed.

Lemma fill_loop_ends (n_components : Z) (n_walkers : nat)
    (pos_in selected : list (list R)) :
  (mask <- prior_mask pos_in n_components ;; mask_index pos_in mask)
    = Ok selected ->
  selected <> [] ->
  forall (fuel : nat) (pos_out : list (list R)),
    (n_walkers <= length pos_out + fuel)%nat ->
    exists pos_out' : list (list R),
      fill_loop fuel pos_in n_components n_walkers pos_out = Some (Ok pos_out').
Proof.
  intros Hsel Hne. induction fuel as [|fuel IH]; intros pos_out Hf;
    cbn [fill_loop].
  - replace (length pos_out <? n_walkers)%nat with false
      by (symmetry; apply Nat.ltb_ge; lia). eauto.
  - destruct (length pos_out <? n_walkers)%nat eqn:E; [|eauto].
    rewrite Hsel. apply IH. rewrite length_app.
    destruct selected; [contradiction|]. simpl. lia.
Qed.

(** X17: when the prior raises on no sample and at least one sample of the
    draw has a finite prior, the loop ends within [n_walkers] turns and the
    assembly returns positions. *)
Theorem one_valid_sample_ends (pos_in selected : list (list R))
    (n_components : Z) (n_walkers : nat) :
  (mask <- prior_mask pos_in n_components ;; mask_index pos_in mask)
    = Ok selected ->
  selected <> [] ->
  exists pos : list (list R),
    assemble_positions n_walkers pos_in n_components n_walkers = Some (Ok pos) /\
    length pos = n_walkers.
Proof.
  intros Hsel Hne. unfold assemble_positions.
  destruct (fill_loop_ends _ n_walkers _ _ Hsel Hne n_walkers (firstn 1 pos_in)
              ltac:(lia)) as [pos_out H].
  rewrite H.
  destruct (fill_loop_invariant _ _ _ _ _ _ H) as (Hlen & _).
  destruct (length pos_out =? n_walkers)%nat eqn:E; cbn [negb].
  - apply Nat.eqb_eq in E. eauto.
  - apply Nat.eqb_neq in E. eexists. split; [reflexivity|].
    rewrite length_firstn, length_skipn. lia.
Qed.

Lemma mask_index_subset {A : Type} (a : list A) :
  forall (mask : list bool) (sel : list A),
    mask_index a mask = Ok sel -> Forall (fun x => In x a) sel.
Proof.
  induction a as [|x a IH]; intros [|b mask] sel H; simpl in H;
    try discriminate.
  - injection H as <-. constructor.
  - destruct (mask_index a mask) as [rest|] eqn:E; [|discriminate].
    simpl in H. injection H as <-.
    specialize (IH _ _ E).
    assert (Hr : Forall (fun y => In y (x :: a)) rest).
    { eapply Forall_impl; [|exact IH]. intros y Hy. now right. }
    destruct b; [constructor; [now left | exact Hr] | exact Hr].
Qed.

Lemma fill_loop_subset (n_components : Z) (n_walkers : nat)
    (pos_in : list (list R)) (fuel : nat) :
  forall pos_out pos_out' : list (list R),
    fill_loop fuel pos_in n_components n_walkers pos_out = Some (Ok pos_out') ->
    Forall (fun p => In p pos_in) pos_out ->
    Forall (fun p => In p pos_in) pos_out'.
Proof.
  induction fuel as [|fuel IH]; intros pos_out pos_out' H Hin; simpl in H.
  - destruct (length pos_out <? n_walkers)%nat; [discriminate|].
    now injection H as <-.
  - destruct (length pos_out <? n_walkers)%nat.
    + destruct (prior_mask pos_in n_components) as [mask|] eqn:Em;
        simpl in H; [|discriminate].
      destruct (mask_index pos_in mask) as [sel|] eqn:Es; [|discriminate].
      apply (IH _ _ H). apply Forall_app. split; [exact Hin|].
      eapply mask_index_subset; eauto.
    + now injection H as <-.
Qed.

(** X18: nothing is redrawn: every position handed to the sampler is one
    of the samples of the single draw. *)
Theorem positions_come_from_the_draw (fuel : nat) (pos_in : list (list R))
    (n_components : Z) (n_walkers : nat) (pos : list (list R)) :
  assemble_positions fuel pos_in n_components n_walkers = Some (Ok pos) ->
  Forall (fun p => In p pos_in) pos.
Proof.
  unfold assemble_positions.
  destruct (fill_loop fuel pos_in n_components n_walkers (firstn 1 pos_in))
    as [[pos_out|e]|] eqn:E; try discriminate.
  assert (Hout : Forall (fun p => In p pos_in) pos_out).
  { apply (fill_loop_subset _ _ _ _ _ _ E).
    apply Forall_forall. intros p Hp.
    rewrite <- (firstn_skipn 1 pos_in). apply in_or_app. now left. }
  destruct (negb _); intros H.
  - assert (pos = firstn n_walkers (skipn 1 pos_out)) by congruence. subst pos.
    apply Forall_firstn.
    rewrite <- (firstn_skipn 1 pos_out) in Hout.
    apply Forall_app in Hout. tauto.
  - assert (pos = pos_out) by congruence. now subst pos.
Qed.

(* ================================================================== *)
(** * More on sigma clipping                                           *)
(* ================================================================== *)

Lemma finite_row_Some (row : list R) : finite_row (map Some row) = Some row.
Proof.
  induction row as [|x row IH]; [reflexivity|]. simpl. now rewrite IH.
Qed.

Lemma where_from_all_true (mask : list bool) (i : nat) :
  Forall (fun b => b = true) mask ->
  length (where_from i mask) = length mask.
Proof.
  intros H. revert i. induction H as [|b rest Hb _ IH]; intros i;
    [reflexivity|].
  subst b. simpl. f_equal. apply IH.
Qed.

Lemma where_from_all_false (mask : list bool) (i : nat) :
  Forall (fun b => b = false) mask -> where_from i mask = [].
Proof.
  intros H. revert i. induction H as [|b rest Hb _ IH]; intros i;
    [reflexivity|].
  subst b. simpl. apply IH.
Qed.

Section ClippingFacts.

Variable rng : Type.
Variable choice_position : rng -> nat -> nat * rng.
Variable random_normal : rng -> R -> R -> R * rng.
Variable np_median : list R -> R.
Variable np_std : list R -> R.
Variable sampler : Type.
Variable run_mcmc : sampler -> list (list R) -> Z -> sampler.
Variable chain_last : sampler -> list (list (option R)).

Let check := check_and_repair rng choice_position random_normal np_median np_std.

(** The flags of line 544 for an ensemble of finite walkers. *)
Let flags (pos : list (list R)) (n_dim : nat) (sigma_clip : R) : list bool :=
  valid_walkers pos
    (map (fun d => np_median (column pos d)) (seq 0 n_dim))
    (map (fun s => Rmax s (1 / 10 ^ 10))
       (map (fun d => np_std (column pos d)) (seq 0 n_dim)))
    sigma_clip.

Lemma replace_invalid_all_finite (g : rng) (source : list (list (option R)))
    (valid_indices : list nat) (n_dim : nat) (pos : list (list R)) :
  replace_invalid rng choice_position random_normal g source valid_indices
    n_dim (map (map Some) pos) = Ok (pos, g).
Proof.
  induction pos as [|row pos IH]; [reflexivity|].
  cbn [map replace_invalid]. rewrite finite_row_Some, IH. reflexivity.
Qed.

(** X19: when every walker is finite and none is flagged as an outlier,
    the check hands the ensemble on as it is and draws no random number. *)
Theorem clean_ensemble_unchanged (g : rng) (pos : list (list R))
    (n_dim : nat) (sigma_clip : R) :
  Forall (fun b => b = true) (flags pos n_dim sigma_clip) ->
  check g (map (map Some) pos) (length pos) n_dim sigma_clip = Ok (pos, g).
Proof.
  intros H. unfold check, check_and_repair.
  rewrite replace_invalid_all_finite. cbn [bind]. fold (flags pos n_dim sigma_clip).
  unfold np_where. rewrite (where_from_all_true _ 0 H).
  unfold flags at 1, valid_walkers. rewrite length_map.
  now rewrite Nat.ltb_irrefl.
Qed.

(** X20: when every walker has a non-finite entry, replacing the first of
    them raises [ValueError]: there is no finite walker to copy. *)
Theorem no_finite_walker_raises (g : rng) (row : list (option R))
    (rows : list (list (option R))) (n_walkers n_dim : nat) (sigma_clip : R) :
  Forall (fun r => finite_row r = None) (row :: rows) ->
  check g (row :: rows) n_walkers n_dim sigma_clip = Raise ValueError.
Proof.
  intros H. unfold check, check_and_repair.
  assert (Hmask : Forall (fun b => b = false)
                    (map negb (invalid_mask (row :: rows)))).
  { unfold invalid_mask. rewrite map_map. apply Forall_map.
    eapply Forall_impl; [|exact H]. intros r Hr. cbv beta. now rewrite Hr. }
  unfold np_where. rewrite (where_from_all_false _ 0 Hmask).
  cbn [replace_invalid]. inversion H as [|? ? Hrow _]; subst.
  rewrite Hrow. reflexivity.
Qed.

Lemma replace_outliers_keeps (last_pos : list (list R))
    (valid_indices : list nat) (stds : list R) (sigma_clip : R) :
  forall (rows : list (list R)) (fl : list bool) (g g' : rng)
         (new_pos : list (list R)),
    length fl = length rows ->
    replace_outliers rng choice_position random_normal g last_pos valid_indices
      stds sigma_clip fl rows = Ok (new_pos, g') ->
    length new_pos = length rows /\
    forall i : nat,
      nth_error fl i = Some true -> nth_error new_pos i = nth_error rows i.
Proof.
  induction rows as [|row rows IH]; intros [|b fl] g g' new_pos Hl H;
    try discriminate.
  - simpl in H. injection H as <- _. split; [reflexivity|].
    intros [|i]; discriminate.
  - assert (Hl' : length fl = length rows) by (simpl in Hl; lia).
    cbn [replace_outliers] in H. destruct b.
    + destruct (replace_outliers _ _ _ g _ _ _ _ fl rows) as [[others g1]|]
        eqn:E; [|discriminate].
      cbn [bind] in H. injection H as <- _.
      destruct (IH _ _ _ _ Hl' E) as [IHl IHk].
      split; [simpl; now rewrite IHl|].
      intros [|i] Hi; [reflexivity|]. simpl in *. now apply IHk.
    + destruct (random_choice _ _ _ _) as [[valid_idx g1]|]; [|discriminate].
      cbn [bind] in H.
      destruct (resample_row _ _ _ _ _ _) as [row' g2].
      destruct (replace_outliers _ _ _ g2 _ _ _ _ fl rows) as [[others g3]|]
        eqn:E; [|discriminate].
      cbn [bind] in H. injection H as <- _.
      destruct (IH _ _ _ _ Hl' E) as [IHl IHk].
      split; [simpl; now rewrite IHl|].
      intros [|i] Hi; [discriminate|]. simpl in *. now apply IHk.
Qed.

(** X21: on an ensemble of finite walkers a successful check returns as
    many walkers as it was given, and every walker that is not flagged as
    an outlier keeps its position. *)
Theorem check_keeps_valid_walkers (g g' : rng) (pos new_pos : list (list R))
    (n_walkers n_dim : nat) (sigma_clip : R) :
  check g (map (map Some) pos) n_walkers n_dim sigma_clip = Ok (new_pos, g') ->
  length new_pos = length pos /\
  forall i : nat,
    nth_error (flags pos n_dim sigma_clip) i = Some true ->
    nth_error new_pos i = nth_error pos i.
Proof.
  unfold check, check_and_repair.
  rewrite replace_invalid_all_finite. cbn [bind].
  fold (flags pos n_dim sigma_clip).
  destruct (length (np_where (flags pos n_dim sigma_clip)) <? n_walkers)%nat.
  - intros H. eapply replace_outliers_keeps; [|exact H].
    unfold flags, valid_walkers. now rewrite length_map.
  - intros [= <- _]. auto.
Qed.

(** X22: with [repeats] at most 1, zero and negative values included, the
    sampler is run exactly once: no check is made and no random number is
    drawn. *)
Theorem single_run_without_check (s : sampler) (pos : list (list R))
    (n_steps : Z) (sigma_clip : R) (repeats : Z) (g : rng) :
  (repeats <= 1)%Z ->
  mcmc_with_sigma_clipping rng choice_position random_normal np_median np_std
    sampler run_mcmc chain_last s pos n_steps sigma_clip repeats g
  = Ok (run_mcmc s pos n_steps, g).
Proof.
  intros H. unfold mcmc_with_sigma_clipping.
  replace (Z.to_nat (repeats - 1)) with 0%nat by lia. reflexivity.
Qed.

End ClippingFacts.

(* ================================================================== *)
(** * More on the result summary                                       *)
(* ================================================================== *)

Lemma concat_length_uniform {A : Type} (k : nat) (l : list (list A)) :
  Forall (fun x => length x = k) l -> length (concat l) = (length l * k)%nat.
Proof.
  induction 1 as [|x l Hx _ IH]; [reflexivity|].
  simpl. rewrite length_app, Hx, IH. reflexivity.
Qed.

Section MoreSummaryFacts.

Variable np_percentile : list R -> R -> R.

(** X23: with more than one run and at least [n_steps] steps recorded for
    every walker, the summary is computed from exactly
    [n_walkers * n_steps] samples. *)
Theorem samples_crop_count (chain : list (list (list R))) (n_steps : Z)
    (burn_in : R) (repeats : Z) :
  (1 < repeats)%Z ->
  Forall (fun walker => (0 < n_steps <= Z.of_nat (length walker))%Z) chain ->
  length (samples_crop chain n_steps burn_in repeats) =
  (length chain * Z.to_nat n_steps)%nat.
Proof.
  intros Hr Hc. unfold samples_crop.
  replace (repeats >? 1)%Z with true by (symmetry; apply Z.gtb_lt; lia).
  rewrite (concat_length_uniform (Z.to_nat n_steps)).
  - now rewrite length_map.
  - apply Forall_map. eapply Forall_impl; [|exact Hc].
    intros w Hw. now apply slice_from_last.
Qed.

(** X25: the parameters that [compare_models] reads back from a summary
    are the medians of the parameter columns, in the order of the
    parameter vector, without the total dust mass: a vector of the length
    its component count asks for. *)
Theorem best_params_of_results (samples : list (list R)) (n_components : Z)
    (n_dim : nat) (results : list (string * (R * R * R))) :
  results_of np_percentile samples n_components n_dim = Ok results ->
  best_params results =
    map (fun d => np_percentile (column samples d) 50) (seq 0 n_dim) /\
  well_shaped n_components (best_params results).
Proof.
  unfold results_of.
  destruct (n_components =? 1)%Z eqn:E1; [|destruct (n_components =? 2)%Z eqn:E2].
  - apply Z.eqb_eq in E1. subst.
    destruct (n_dim =? 2)%nat eqn:En; [|discriminate].
    apply Nat.eqb_eq in En. subst. intros [= <-].
    split; [reflexivity | left; split; reflexivity].
  - apply Z.eqb_eq in E2. subst.
    destruct (n_dim =? 4)%nat eqn:En; [|discriminate].
    apply Nat.eqb_eq in En. subst. intros [= <-].
    split; [reflexivity | right; split; reflexivity].
  - discriminate.
Qed.

End MoreSummaryFacts.

(* ================================================================== *)
(** * The comparison of the two fits                                   *)
(* ================================================================== *)

Section ComparisonFacts.

Variable BlackBody : R -> R -> R.
Variable calc_distance : R -> R.
Variable import_coefficients : R -> string -> bool -> list R * list R.
Variable interpolate_kappa : list R -> list R -> list R -> list R.
Variable calc_filter_flux : list R -> list R -> list R -> list R -> R.
Variable sp_erf : R -> R.

Let flux := model_flux BlackBody calc_distance import_coefficients
              interpolate_kappa calc_filter_flux.
Let loglike := log_likelihood BlackBody calc_distance import_coefficients
                 interpolate_kappa calc_filter_flux sp_erf.
Let compare := compare_models BlackBody calc_distance import_coefficients
                 interpolate_kappa calc_filter_flux sp_erf.

Lemma model_flux_shape (theta obs_wave obs_flux kappa_interp : list R)
    (z d : R) (n : Z) (wf tf : option (list (list R))) (f : list R) :
  flux theta obs_wave obs_flux kappa_interp z d n wf tf = Ok f ->
  well_shaped n theta.
Proof.
  unfold flux, model_flux.
  destruct (n =? 1)%Z eqn:E1; [|destruct (n =? 2)%Z eqn:E2].
  - apply Z.eqb_eq in E1. subst.
    destruct theta as [|a [|b [|c t]]]; try discriminate.
    intros _. left. split; reflexivity.
  - apply Z.eqb_eq in E2. subst.
    destruct theta as [|a [|b [|c [|e [|e' t]]]]]; try discriminate.
    intros _. right. split; reflexivity.
  - discriminate.
Qed.

Lemma log_likelihood_shape (theta obs_wave obs_flux obs_flux_err : list R)
    (obs_limits : list bool) (kappa_interp : list R) (z d : R) (n : Z)
    (wf tf : option (list (list R))) (v : float) :
  loglike theta obs_wave obs_flux obs_flux_err obs_limits kappa_interp z d n
    wf tf = Ok v ->
  well_shaped n theta.
Proof.
  unfold loglike, log_likelihood. fold flux.
  destruct (flux theta obs_wave obs_flux kappa_interp z d n wf tf) as [f|e]
    eqn:E; [|discriminate].
  intros _. eapply model_flux_shape; eauto.
Qed.

(** What a returned comparison holds. *)
Lemma compare_models_returns (obs_wave obs_flux obs_flux_err : list R)
    (obs_limits : list bool) (z : R)
    (results_1 results_2 : list (string * (R * R * R)))
    (composition1 composition2 : string) (grain_size : R)
    (wf tf : option (list (list R))) (c : comparison) :
  compare obs_wave obs_flux obs_flux_err obs_limits z results_1 results_2
    composition1 composition2 grain_size wf tf = Ok c ->
  let ln_n := np_log_len (length obs_flux) in
  let two_ll_1 := xscale 2 (of_float (log_like_1 c)) in
  let two_ll_2 := xscale 2 (of_float (log_like_2 c)) in
  aic_1comp c = xsub (XFinite (2 * 2)) two_ll_1 /\
  aic_2comp c = xsub (XFinite (2 * 4)) two_ll_2 /\
  bic_1comp c = xsub (xscale 2 ln_n) two_ll_1 /\
  bic_2comp c = xsub (xscale 4 ln_n) two_ll_2 /\
  delta_aic c = xsub (aic_1comp c) (aic_2comp c) /\
  delta_bic c = xsub (bic_1comp c) (bic_2comp c) /\
  printed c =
    (if xpositive (delta_aic c) && xpositive (delta_bic c)
     then Some both_favor_two
     else if xpositive (delta_aic c) && xnonpositive (delta_bic c)
     then Some aic_favors_two_bic_favors_one
     else if xnonpositive (delta_aic c) && xnonpositive (delta_bic c)
     then Some both_favor_one
     else None).
Proof.
  unfold compare, compare_models.
  destruct (import_coefficients grain_size composition1 false) as [wk1 k1].
  fold loglike.
  destruct (loglike (best_params results_1) _ _ _ _ _ _ _ _ _ _) as [ll1|]
    eqn:E1; [|discriminate].
  cbn [bind].
  destruct (import_coefficients grain_size composition2 false) as [wk2 k2].
  destruct (loglike (best_params results_2) _ _ _ _ _ _ _ _ _ _) as [ll2|]
    eqn:E2; [|discriminate].
  cbn [bind]. intros [= <-]. cbn [aic_1comp aic_2comp bic_1comp bic_2comp
    delta_aic delta_bic printed log_like_1 log_like_2].
  destruct (log_likelihood_shape _ _ _ _ _ _ _ _ _ _ _ _ E1)
    as [[_ H1] | [H1 _]]; [|discriminate].
  destruct (log_likelihood_shape _ _ _ _ _ _ _ _ _ _ _ _ E2)
    as [[H2 _] | [_ H2]]; [discriminate|].
  rewrite H1, H2.
  replace (INR 2) with 2 by (simpl; lra).
  replace (INR 4) with 4 by (simpl; lra).
  repeat split; reflexivity.
Qed.

End ComparisonFacts.

Lemma exp_2_below_8 : exp 2 < 8.
Proof.
  assert (H0 : 15 / 16 <= exp (- (1 / 16))).
  { pose proof (exp_ineq1_le (- (1 / 16))). lra. }
  assert (P1 := exp_pos (1 / 16)).
  assert (A1 : exp (1 / 16) <= 10667 / 10000).
  { rewrite exp_Ropp in H0.
    assert (Hi : / exp (1 / 16) * exp (1 / 16) = 1) by (apply Rinv_l; lra).
    assert (Hp : 0 < / exp (1 / 16)) by (apply Rinv_0_lt_compat; lra).
    nra. }
  assert (A2 : exp (1 / 8) <= 11379 / 10000).
  { replace (1 / 8) with (1 / 16 + 1 / 16) by lra. rewrite exp_plus. nra. }
  assert (P2 := exp_pos (1 / 8)).
  assert (A3 : exp (1 / 4) <= 12949 / 10000).
  { replace (1 / 4) with (1 / 8 + 1 / 8) by lra. rewrite exp_plus. nra. }
  assert (P3 := exp_pos (1 / 4)).
  assert (A4 : exp (1 / 2) <= 16768 / 10000).
  { replace (1 / 2) with (1 / 4 + 1 / 4) by lra. rewrite exp_plus. nra. }
  assert (P4 := exp_pos (1 / 2)).
  assert (A5 : exp 1 <= 28117 / 10000).
  { replace 1 with (1 / 2 + 1 / 2) at 1 by lra. rewrite exp_plus. nra. }
  assert (P5 := exp_pos 1).
  replace 2 with (1 + 1) by lra. rewrite exp_plus. nra.
Qed.

Lemma ln_of_eight_points (n : nat) : (8 <= n)%nat -> 2 < ln (INR n).
Proof.
  intros H. apply le_INR in H. simpl in H.
  assert (H8 : 8 <= INR n) by lra.
  rewrite <- (ln_exp 2). apply ln_increasing; [apply exp_pos|].
  pose proof exp_2_below_8. lra.
Qed.

Section ComparisonTheorems.

Variable BlackBody : R -> R -> R.
Variable calc_distance : R -> R.
Variable import_coefficients : R -> string -> bool -> list R * list R.
Variable interpolate_kappa : list R -> list R -> list R -> list R.
Variable calc_filter_flux : list R -> list R -> list R -> list R -> R.
Variable sp_erf : R -> R.

Let compare := compare_models BlackBody calc_distance import_coefficients
                 interpolate_kappa calc_filter_flux sp_erf.

Variables obs_wave obs_flux obs_flux_err : list R.
Variable obs_limits : list bool.
Variable z : R.
Variables results_1 results_2 : list (string * (R * R * R)).
Variables composition1 composition2 : string.
Variable grain_size : R.
Variables wf tf : option (list (list R)).

Lemma finite_deltas (c : comparison) (l1 l2 : R) :
  compare obs_wave obs_flux obs_flux_err obs_limits z results_1 results_2
    composition1 composition2 grain_size wf tf = Ok c ->
  log_like_1 c = Finite l1 ->
  log_like_2 c = Finite l2 ->
  (0 < length obs_flux)%nat ->
  delta_aic c = XFinite (2 * (l2 - l1) - 4) /\
  delta_bic c = XFinite (2 * (l2 - l1) - 2 * ln (INR (length obs_flux))).
Proof.
  intros Hc H1 H2 Hn.
  destruct (compare_models_returns _ _ _ _ _ _ _ _ _ _ _ _ _ _ _ _ _ _ _ Hc)
    as (Ea1 & Ea2 & Eb1 & Eb2 & Eda & Edb & _).
  rewrite H1, H2 in *. cbn [of_float xscale] in *.
  rewrite Eda, Edb, Ea1, Ea2, Eb1, Eb2.
  destruct (length obs_flux) as [|k] eqn:Ek; [lia|].
  cbn [np_log_len xscale xsub]. split; f_equal; ring.
Qed.

(** X26: when both log-likelihoods are finite and there is data, the
    difference of the Akaike criteria is 2 (ll2 - ll1) - 4 and that of the
    Bayesian criteria is 2 (ll2 - ll1) - 2 log(n_data): the two-component
    fit is favoured by the first when it gains more than 2 in
    log-likelihood and by the second when it gains more than log(n_data). *)
Theorem criteria_of_finite_likelihoods (c : comparison) (l1 l2 : R) :
  compare obs_wave obs_flux obs_flux_err obs_limits z results_1 results_2
    composition1 composition2 grain_size wf tf = Ok c ->
  log_like_1 c = Finite l1 ->
  log_like_2 c = Finite l2 ->
  (0 < length obs_flux)%nat ->
  delta_aic c = XFinite (2 * (l2 - l1) - 4) /\
  delta_bic c = XFinite (2 * (l2 - l1) - 2 * ln (INR (length obs_flux))) /\
  (xpositive (delta_aic c) = true <-> 2 < l2 - l1) /\
  (xpositive (delta_bic c) = true <-> ln (INR (length obs_flux)) < l2 - l1).
Proof.
  intros Hc H1 H2 Hn.
  destruct (finite_deltas c l1 l2 Hc H1 H2 Hn) as [Ea Eb].
  rewrite Ea, Eb. cbn [xpositive]. rewrite !Rltb_true_iff.
  repeat split; intros; lra.
Qed.

Lemma printed_cases (c : comparison) (l1 l2 : R) :
  compare obs_wave obs_flux obs_flux_err obs_limits z results_1 results_2
    composition1 composition2 grain_size wf tf = Ok c ->
  log_like_1 c = Finite l1 ->
  log_like_2 c = Finite l2 ->
  (0 < length obs_flux)%nat ->
  printed c =
    (if Rltb 2 (l2 - l1) && Rltb (ln (INR (length obs_flux))) (l2 - l1)
     then Some both_favor_two
     else if Rltb 2 (l2 - l1)
     then Some aic_favors_two_bic_favors_one
     else if Rltb (ln (INR (length obs_flux))) (l2 - l1) then None
     else Some both_favor_one).
Proof.
  intros Hc H1 H2 Hn.
  destruct (finite_deltas c l1 l2 Hc H1 H2 Hn) as [Ea Eb].
  destruct (compare_models_returns _ _ _ _ _ _ _ _ _ _ _ _ _ _ _ _ _ _ _ Hc)
    as (_ & _ & _ & _ & _ & _ & Ep).
  rewrite Ep, Ea, Eb. cbn [xpositive xnonpositive].
  set (n := ln (INR (length obs_flux))).
  assert (Ba : Rltb 0 (2 * (l2 - l1) - 4) = Rltb 2 (l2 - l1)).
  { destruct (Rltb 2 (l2 - l1)) eqn:E.
    - apply Rltb_true_iff in E. apply Rltb_true_iff. lra.
    - apply Rltb_false_iff in E. apply Rltb_false_iff. lra. }
  assert (Bb : Rltb 0 (2 * (l2 - l1) - 2 * n) = Rltb n (l2 - l1)).
  { destruct (Rltb n (l2 - l1)) eqn:E.
    - apply Rltb_true_iff in E. apply Rltb_true_iff. lra.
    - apply Rltb_false_iff in E. apply Rltb_false_iff. lra. }
  rewrite Ba, Bb.
  destruct (Rltb 2 (l2 - l1)), (Rltb n (l2 - l1)); reflexivity.
Qed.

(** X27: for finite log-likelihoods no message is printed exactly when
    the Bayesian criterion favours two components and the Akaike criterion
    does not, that is when log(n_data) < ll2 - ll1 <= 2. *)
Theorem no_message_iff (c : comparison) (l1 l2 : R) :
  compare obs_wave obs_flux obs_flux_err obs_limits z results_1 results_2
    composition1 composition2 grain_size wf tf = Ok c ->
  log_like_1 c = Finite l1 ->
  log_like_2 c = Finite l2 ->
  (0 < length obs_flux)%nat ->
  printed c = None <-> ln (INR (length obs_flux)) < l2 - l1 <= 2.
Proof.
  intros Hc H1 H2 Hn. rewrite (printed_cases c l1 l2 Hc H1 H2 Hn).
  destruct (Rltb 2 (l2 - l1)) eqn:Ea;
    destruct (Rltb (ln (INR (length obs_flux))) (l2 - l1)) eqn:Eb; cbn [andb];
    [apply Rltb_true_iff in Ea | apply Rltb_true_iff in Ea
     | apply Rltb_false_iff in Ea | apply Rltb_false_iff in Ea];
    [apply Rltb_true_iff in Eb | apply Rltb_false_iff in Eb
     | apply Rltb_true_iff in Eb | apply Rltb_false_iff in Eb];
    split; intros H; try discriminate; try reflexivity; lra.
Qed.

(** X28: with at least 8 observed points and finite log-likelihoods one of
    the three messages is always printed, since log(n_data) > 2 makes the
    Bayesian criterion the stricter of the two. *)
Theorem message_with_eight_points (c : comparison) (l1 l2 : R) :
  compare obs_wave obs_flux obs_flux_err obs_limits z results_1 results_2
    composition1 composition2 grain_size wf tf = Ok c ->
  log_like_1 c = Finite l1 ->
  log_like_2 c = Finite l2 ->
  (8 <= length obs_flux)%nat ->
  exists m : message, printed c = Some m.
Proof.
  intros Hc H1 H2 Hn.
  rewrite (printed_cases c l1 l2 Hc H1 H2 ltac:(lia)).
  pose proof (ln_of_eight_points _ Hn) as Hln.
  destruct (Rltb 2 (l2 - l1)) eqn:Ea;
    destruct (Rltb (ln (INR (length obs_flux))) (l2 - l1)) eqn:Eb; cbn [andb];
    eauto.
  apply Rltb_false_iff in Ea. apply Rltb_true_iff in Eb. lra.
Qed.

(** X29: a log-likelihood of minus infinity makes the criteria of that fit
    plus infinity.  If only the one-component fit has it, both differences
    are plus infinity and both criteria are reported to favour two
    components; if only the two-component fit has it, both are minus
    infinity and one component is favoured; if both have it, both
    differences are NaN and nothing is printed. *)
Theorem criteria_of_infinite_likelihoods (c : comparison) :
  compare obs_wave obs_flux obs_flux_err obs_limits z results_1 results_2
    composition1 composition2 grain_size wf tf = Ok c ->
  (0 < length obs_flux)%nat ->
  (forall l2 : R,
     log_like_1 c = NegInf -> log_like_2 c = Finite l2 ->
     delta_aic c = XPosInf /\ delta_bic c = XPosInf /\
     printed c = Some both_favor_two) /\
  (forall l1 : R,
     log_like_1 c = Finite l1 -> log_like_2 c = NegInf ->
     delta_aic c = XNegInf /\ delta_bic c = XNegInf /\
     printed c = Some both_favor_one) /\
  (log_like_1 c = NegInf -> log_like_2 c = NegInf ->
   delta_aic c = XNaN /\ delta_bic c = XNaN /\ printed c = None).
Proof.
  intros Hc Hn.
  destruct (compare_models_returns _ _ _ _ _ _ _ _ _ _ _ _ _ _ _ _ _ _ _ Hc)
    as (Ea1 & Ea2 & Eb1 & Eb2 & Eda & Edb & Ep).
  assert (T : Rltb 0 2 = true) by (apply Rltb_true_iff; lra).
  destruct (length obs_flux) as [|k] eqn:Ek; [lia|].
  cbn [np_log_len xscale] in *.
  repeat split; intros; 
    match goal with
    | H1 : log_like_1 c = _, H2 : log_like_2 c = _ |- _ =>
        rewrite H1, H2 in *
    end;
    cbn [of_float xscale] in *; rewrite ?T in *;
    rewrite ?Ep, ?Eda, ?Edb, ?Ea1, ?Ea2, ?Eb1, ?Eb2; reflexivity.
Qed.

End ComparisonTheorems.

(* ================================================================== *)
(** * Concrete runs of the further properties                          *)
(* ================================================================== *)

Lemma one_component_closed_form_witness :
  exists f : list R,
    model_flux (fun _ _ => 1) unit_distance no_coefficients no_interpolation
      no_filter_flux [0; 100] [10] [1] [1] 0 1 1%Z None None = Ok f /\
    f = map2 (fun w k => Rpower 10 0 * Msun_g * k * 1 * (1 + 0) / 1 ^ 2
                         * Jy_per_cgs) [10] [1].
Proof.
  eexists. split; [reflexivity|].
  apply (one_component_closed_form (fun _ _ => 1) unit_distance no_coefficients
           no_interpolation no_filter_flux 0 100 [10] [1] [1] 0 1 _ eq_refl).
  lra.
Defined.

Lemma flux_scales_with_mass_witness :
  exists f f' : list R,
    model_flux (fun _ _ => 1) unit_distance no_coefficients no_interpolation
      no_filter_flux [0; 100] [10] [1] [1] 0 1 1%Z None None = Ok f /\
    model_flux (fun _ _ => 1) unit_distance no_coefficients no_interpolation
      no_filter_flux [0 + 1; 100] [10] [1] [1] 0 1 1%Z None None = Ok f' /\
    f' = map (fun x => Rpower 10 1 * x) f.
Proof.
  eexists. eexists. split; [reflexivity|]. split; [reflexivity|].
  exact (flux_scales_with_mass (fun _ _ => 1) unit_distance no_coefficients
           no_interpolation no_filter_flux 0 1 100 [10] [1] [1] 0 1 _ _
           eq_refl eq_refl).
Defined.

Lemma model_flux_returns_only_if_witness :
  well_shaped 1 [0; 100] /\ length [10] = length [1].
Proof.
  exact (model_flux_returns_only_if (fun _ _ => 1) unit_distance
           no_coefficients no_interpolation no_filter_flux [0; 100] [10] [1]
           [1] 0 1 1%Z _ eq_refl).
Defined.

Lemma model_flux_through_filters_witness :
  model_flux dark_body unit_distance no_coefficients no_interpolation first_flux
    [0; 100] [10] [5; 6] [1] 0 1 1%Z (Some [[9; 11]]) (Some [[1; 1]])
  = (f <- model_flux dark_body unit_distance no_coefficients no_interpolation
            first_flux [0; 100] [10] [5; 6] [1] 0 1 1%Z None None ;;
     Ok (map2 (first_flux [10] f) [[9; 11]] [[1; 1]] ++ repeat 0 (2 - 1))).
Proof.
  apply (model_flux_through_filters dark_body unit_distance no_coefficients
           no_interpolation first_flux [0; 100] [10] [5; 6] [1] 0 1 1%Z
           [[9; 11]] [[1; 1]]); simpl; lia.
Defined.

Lemma model_flux_too_many_filters_witness :
  model_flux dark_body unit_distance no_coefficients no_interpolation first_flux
    [0; 100] [10] [5] [1] 0 1 1%Z (Some [[9; 11]; [19; 21]])
    (Some [[1; 1]; [1; 1]])
  = (f <- model_flux dark_body unit_distance no_coefficients no_interpolation
            first_flux [0; 100] [10] [5] [1] 0 1 1%Z None None ;;
     Raise IndexError).
Proof.
  apply (model_flux_too_many_filters dark_body unit_distance no_coefficients
           no_interpolation first_flux [0; 100] [10] [5] [1] 0 1 1%Z
           [[9; 11]; [19; 21]] [[1; 1]; [1; 1]]).
  left. simpl. lia.
Defined.

Lemma log_probability_inside_box_witness :
  log_probability dark_body unit_distance no_coefficients no_interpolation
    no_filter_flux clipped_erf [0; 100] [10] [10] [1] [true] [1] 0 1 1%Z
    None None
  = log_likelihood dark_body unit_distance no_coefficients no_interpolation
      no_filter_flux clipped_erf [0; 100] [10] [10] [1] [true] [1] 0 1 1%Z
      None None.
Proof.
  apply (log_probability_inside_box dark_body unit_distance no_coefficients
           no_interpolation no_filter_flux clipped_erf [0; 100] [10] [10] [1]
           [true] [1] 0 1 1%Z None None).
  simpl. repeat split; lra.
Defined.

Lemma exact_fit_likelihood_witness :
  log_likelihood dark_body unit_distance no_coefficients no_interpolation
    no_filter_flux clipped_erf [0; 100] [10] [0] [1] [false] [1] 0 1 1%Z
    None None
  = Ok (Finite (- (1 / 2) * np_sum (map (fun s => ln (2 * PI * s ^ 2)) [1]))).
Proof.
  apply (exact_fit_likelihood dark_body unit_distance no_coefficients
           no_interpolation no_filter_flux clipped_erf [0; 100] [10] [0] [1]
           [false] [1] 0 1 1%Z None None (dark_model_flux [0])).
  - reflexivity.
  - reflexivity.
  - repeat constructor.
Defined.

Lemma clipped_erf_at_most_one (x : R) : clipped_erf x <= 1.
Proof.
  unfold clipped_erf. apply Rmax_lub; [lra | apply Rmin_l].
Qed.

Lemma clipped_erf_monotone (x y : R) : x <= y -> clipped_erf x <= clipped_erf y.
Proof.
  intros H. unfold clipped_erf, Rmax, Rmin.
  repeat destruct (Rle_dec _ _); lra.
Qed.

Lemma upper_limits_only_lower_witness :
  exists v : float,
    log_likelihood dark_body unit_distance no_coefficients no_interpolation
      no_filter_flux clipped_erf [0; 100] [10] [10] [1] [true] [1] 0 1 1%Z
      None None = Ok v /\
    fle v (Finite (gaussian_loglike [0] [10] [1] [true])).
Proof.
  apply (upper_limits_only_lower dark_body unit_distance no_coefficients
           no_interpolation no_filter_flux clipped_erf [0; 100] [10] [10] [1]
           [true] [1] 0 1 1%Z None None [0] clipped_erf_at_most_one
           (dark_model_flux [10])).
  repeat split.
Defined.

Lemma likelihood_finite_iff_witness :
  likelihood_of_flux clipped_erf [0] [10] [1] [true] = Ok NegInf.
Proof.
  refine (proj2 (likelihood_finite_iff clipped_erf [0] [10] [1] [true] _ _) _).
  - repeat split.
  - repeat constructor. lra.
  - intros H. specialize (H 0%nat 0 10 1 eq_refl eq_refl eq_refl eq_refl).
    unfold limit_prob in H.
    rewrite clipped_erf_low in H by exact ten_sigma_below. lra.
Defined.

Lemma raising_limits_never_increases_witness :
  exists v v' : float,
    likelihood_of_flux clipped_erf [0] [0] [1] [true] = Ok v /\
    likelihood_of_flux clipped_erf [0] [1] [1] [true] = Ok v' /\
    fle v' v.
Proof.
  apply (raising_limits_never_increases clipped_erf clipped_erf_monotone
           [0] [0] [1] [1] [true]).
  - repeat split.
  - simpl. split; [lra | exact I].
  - repeat constructor. lra.
Defined.

Lemma finite_prior_hot_above_cold : finite_prior 2 [0; 100; 0; 500].
Proof. exists (Finite 0). split; [exact log_prior_hot_above_cold | reflexivity]. Qed.

Lemma assemble_three_walkers :
  assemble_positions 2 [[0; 500; 0; 100]; [0; 100; 0; 500]] 2 3
  = Some (Ok [[0; 500; 0; 100]; [0; 100; 0; 500]; [0; 100; 0; 500]]).
Proof.
  unfold assemble_positions. cbn [firstn fill_loop length Nat.ltb Nat.leb].
  cbn [prior_mask]. rewrite log_prior_cold_above_hot, log_prior_hot_above_cold.
  reflexivity.
Qed.

Lemma assemble_positions_tail_witness :
  length [[0; 500; 0; 100]; [0; 100; 0; 500]; [0; 100; 0; 500]] = 3%nat /\
  Forall (finite_prior 2)
    (tl [[0; 500; 0; 100]; [0; 100; 0; 500]; [0; 100; 0; 500]]).
Proof.
  exact (assemble_positions_tail 2 [[0; 500; 0; 100]; [0; 100; 0; 500]] 2 3
           [[0; 500; 0; 100]; [0; 100; 0; 500]; [0; 100; 0; 500]]
           assemble_three_walkers).
Defined.

Lemma all_valid_draw_is_kept_witness :
  assemble_positions 1 [[0; 100; 0; 500]; [0; 100; 0; 500]] 2 2
  = Some (Ok [[0; 100; 0; 500]; [0; 100; 0; 500]]).
Proof.
  apply (all_valid_draw_is_kept 0 [[0; 100; 0; 500]; [0; 100; 0; 500]] 2 2).
  - repeat constructor; exact finite_prior_hot_above_cold.
  - reflexivity.
Defined.

Lemma no_valid_sample_never_ends_witness :
  assemble_positions 1000 [[0; 500; 0; 100]; [0; 500; 0; 100]] 2 2 = None.
Proof.
  apply (no_valid_sample_never_ends 1000 [[0; 500; 0; 100]; [0; 500; 0; 100]]
           2 2).
  - repeat constructor; exact log_prior_cold_above_hot.
  - lia.
Defined.

Lemma select_one_valid :
  (mask <- prior_mask [[0; 500; 0; 100]; [0; 100; 0; 500]] 2 ;;
   mask_index [[0; 500; 0; 100]; [0; 100; 0; 500]] mask)
  = Ok [[0; 100; 0; 500]].
Proof.
  cbn [prior_mask]. rewrite log_prior_cold_above_hot, log_prior_hot_above_cold.
  reflexivity.
Qed.

Lemma one_valid_sample_ends_witness :
  exists pos : list (list R),
    assemble_positions 5 [[0; 500; 0; 100]; [0; 100; 0; 500]] 2 5
      = Some (Ok pos) /\
    length pos = 5%nat.
Proof.
  apply (one_valid_sample_ends [[0; 500; 0; 100]; [0; 100; 0; 500]]
           [[0; 100; 0; 500]] 2 5 select_one_valid).
  discriminate.
Defined.

Lemma positions_come_from_the_draw_witness :
  Forall (fun p => In p [[0; 500; 0; 100]; [0; 100; 0; 500]])
    [[0; 500; 0; 100]; [0; 100; 0; 500]; [0; 100; 0; 500]].
Proof.
  exact (positions_come_from_the_draw 2 [[0; 500; 0; 100]; [0; 100; 0; 500]]
           2 3 [[0; 500; 0; 100]; [0; 100; 0; 500]; [0; 100; 0; 500]]
           assemble_three_walkers).
Defined.

(** Three walkers in one dimension at -1, 0 and 1, of median 0 and standard
    deviation 1, clipped at two sigma: none is an outlier. *)
Lemma three_walkers_inside :
  valid_walkers [[-1]; [0]; [1]]
    (map (fun d => (fun _ : list R => 0) (column [[-1]; [0]; [1]] d)) (seq 0 1))
    (map (fun s => Rmax s (1 / 10 ^ 10))
       (map (fun d => (fun _ : list R => 1) (column [[-1]; [0]; [1]] d))
          (seq 0 1)))
    2
  = [true; true; true].
Proof.
  unfold valid_walkers, map2, column. cbn [map seq combine fst snd nth forallb].
  rewrite Rmax_left by lra.
  replace (-1 - 0) with (-1) by ring. replace (1 - 0) with 1 by ring.
  replace (0 - 0) with 0 by ring.
  replace (Rabs (-1)) with 1
    by (rewrite <- Rabs_Ropp; replace (- -1) with 1 by ring;
        symmetry; apply Rabs_R1).
  rewrite Rabs_R1, Rabs_R0. decide_Rltb. reflexivity.
Qed.

Lemma clean_ensemble_unchanged_witness :
  check_and_repair Datatypes.unit (fun g _ => (0%nat, g)) (fun g _ _ => (0, g))
    (fun _ => 0) (fun _ => 1) tt [[Some (-1)]; [Some 0]; [Some 1]] 3 1 2
  = Ok ([[-1]; [0]; [1]], tt).
Proof.
  apply (clean_ensemble_unchanged Datatypes.unit (fun g _ => (0%nat, g))
           (fun g _ _ => (0, g)) (fun _ => 0) (fun _ => 1) tt
           [[-1]; [0]; [1]] 1 2).
  rewrite three_walkers_inside. repeat constructor.
Defined.

Lemma no_finite_walker_raises_witness :
  check_and_repair Datatypes.unit (fun g _ => (0%nat, g)) (fun g _ _ => (0, g))
    (fun _ => 0) (fun _ => 1) tt [[None]; [Some 1; None]] 2 2 2
  = Raise ValueError.
Proof.
  apply (no_finite_walker_raises Datatypes.unit (fun g _ => (0%nat, g))
           (fun g _ _ => (0, g)) (fun _ => 0) (fun _ => 1) tt
           [None] [[Some 1; None]] 2 2 2).
  repeat constructor.
Defined.

(** The same walkers with the last one moved to 5: it alone is an
    outlier. *)
Lemma one_walker_outside :
  valid_walkers [[-1]; [0]; [5]]
    (map (fun d => (fun _ : list R => 0) (column [[-1]; [0]; [5]] d)) (seq 0 1))
    (map (fun s => Rmax s (1 / 10 ^ 10))
       (map (fun d => (fun _ : list R => 1) (column [[-1]; [0]; [5]] d))
          (seq 0 1)))
    2
  = [true; true; false].
Proof.
  unfold valid_walkers, map2, column. cbn [map seq combine fst snd nth forallb].
  rewrite Rmax_left by lra.
  replace (-1 - 0) with (-1) by ring. replace (5 - 0) with 5 by ring.
  replace (0 - 0) with 0 by ring.
  replace (Rabs (-1)) with 1
    by (rewrite <- Rabs_Ropp; replace (- -1) with 1 by ring;
        symmetry; apply Rabs_R1).
  rewrite Rabs_R0. rewrite (Rabs_pos_eq 5) by lra. decide_Rltb. reflexivity.
Qed.

Lemma one_outlier_repaired :
  check_and_repair Datatypes.unit (fun g _ => (0%nat, g)) (fun g _ _ => (0, g))
    (fun _ => 0) (fun _ => 1) tt
    (map (map Some) [[-1]; [0]; [5]]) 3 1 2
  = Ok ([[-1]; [0]; [-1 + 0]], tt).
Proof.
  unfold check_and_repair.
  cbn [map replace_invalid finite_row bind].
  rewrite one_walker_outside. reflexivity.
Qed.

Lemma check_keeps_valid_walkers_witness :
  length [[-1]; [0]; [-1 + 0]] = length [[-1]; [0]; [5]] /\
  forall i : nat,
    nth_error
      (valid_walkers [[-1]; [0]; [5]]
         (map (fun d => (fun _ : list R => 0) (column [[-1]; [0]; [5]] d))
            (seq 0 1))
         (map (fun s => Rmax s (1 / 10 ^ 10))
            (map (fun d => (fun _ : list R => 1) (column [[-1]; [0]; [5]] d))
               (seq 0 1)))
         2) i = Some true ->
    nth_error [[-1]; [0]; [-1 + 0]] i = nth_error [[-1]; [0]; [5]] i.
Proof.
  exact (check_keeps_valid_walkers Datatypes.unit (fun g _ => (0%nat, g))
           (fun g _ _ => (0, g)) (fun _ => 0) (fun _ => 1) tt tt
           [[-1]; [0]; [5]] [[-1]; [0]; [-1 + 0]] 3 1 2 one_outlier_repaired).
Defined.

Lemma single_run_without_check_witness :
  mcmc_with_sigma_clipping Datatypes.unit (fun g _ => (0%nat, g))
    (fun g _ _ => (0, g)) (fun _ => 0) (fun _ => 1)
    (list (list (list R))) (fun s pos _ => pos :: s)
    (fun _ => []) [] [[0; 100]] 10 2 0 tt
  = Ok ([[[0; 100]]], tt).
Proof.
  apply (single_run_without_check Datatypes.unit (fun g _ => (0%nat, g))
           (fun g _ _ => (0, g)) (fun _ => 0) (fun _ => 1)
           (list (list (list R))) (fun s pos _ => pos :: s) (fun _ => [])
           [] [[0; 100]] 10 2 0 tt).
  lia.
Defined.

Lemma samples_crop_count_witness :
  length (samples_crop [[[1; 100]; [2; 200]; [3; 300]; [4; 400]];
                        [[5; 500]; [6; 600]; [7; 700]; [8; 800]]]
            2 (3 / 4) 2)
  = (2 * Z.to_nat 2)%nat.
Proof.
  apply (samples_crop_count
           [[[1; 100]; [2; 200]; [3; 300]; [4; 400]];
            [[5; 500]; [6; 600]; [7; 700]; [8; 800]]] 2 (3 / 4) 2).
  - lia.
  - repeat constructor; simpl; lia.
Defined.

Lemma best_params_of_results_witness :
  best_params
    [("log_dust_mass_cold"%string, interval (fun _ q => q) (column [[0; 100]] 0));
     ("temp_cold"%string, interval (fun _ q => q) (column [[0; 100]] 1));
     ("total_dust_mass"%string,
      interval (fun _ q => q) (map (fun x => Rpower 10 x) (column [[0; 100]] 0)))]
  = map (fun d => (fun (_ : list R) (q : R) => q) (column [[0; 100]] d) 50)
      (seq 0 2) /\
  well_shaped 1
    (best_params
       [("log_dust_mass_cold"%string,
         interval (fun _ q => q) (column [[0; 100]] 0));
        ("temp_cold"%string, interval (fun _ q => q) (column [[0; 100]] 1));
        ("total_dust_mass"%string,
         interval (fun _ q => q)
           (map (fun x => Rpower 10 x) (column [[0; 100]] 0)))]).
Proof.
  exact (best_params_of_results (fun _ q => q) [[0; 100]] 1 2 _ eq_refl).
Defined.

(** A dark body gives no flux at any wavelength, with one component or
    two. *)
Lemma dark_flux_vanishes (m t z d : R) (obs_wave kappa_interp : list R) :
  length obs_wave = length kappa_interp ->
  calc_model_flux dark_body unit_distance no_coefficients flat_opacity obs_wave
    m t z (Some d) None None (Some kappa_interp) (1 / 10) "carbon" false
  = Ok (map (fun _ => 0) obs_wave).
Proof.
  intros H. rewrite one_component_unfold.
  replace (length obs_wave =? length kappa_interp)%nat with true
    by (symmetry; apply Nat.eqb_eq; exact H).
  f_equal. revert kappa_interp H.
  induction obs_wave as [|w ws IH]; intros [|k ks] H; try discriminate;
    [reflexivity|].
  cbn [combine map fst snd]. rewrite IH by (simpl in H; lia).
  f_equal. unfold dark_body, Rdiv. ring.
Qed.

Lemma vadd_zeros {A : Type} (l : list A) :
  vadd (map (fun _ => 0) l) (map (fun _ => 0) l) = map (fun _ => 0) l.
Proof.
  induction l as [|x l IH]; [reflexivity|].
  unfold vadd, map2 in *. cbn [map combine fst snd]. rewrite IH.
  f_equal. ring.
Qed.

Lemma dark_comparison (obs_wave obs_flux obs_flux_err : list R)
    (obs_limits : list bool) (ll : float) :
  likelihood_of_flux clipped_erf (map (fun _ => 0) obs_wave) obs_flux
    obs_flux_err obs_limits = Ok ll ->
  exists c : comparison,
    compare_models dark_body unit_distance no_coefficients flat_opacity
      no_filter_flux clipped_erf obs_wave obs_flux obs_flux_err obs_limits 0
      summary_1 summary_2 "carbon" "carbon" (1 / 10) None None = Ok c /\
    log_like_1 c = ll /\ log_like_2 c = ll.
Proof.
  intros H. unfold compare_models, log_likelihood, model_flux.
  cbn [no_coefficients best_params summary_1 summary_2 map removelast fst snd].
  simpl Z.eqb. cbv iota.
  assert (Hk : length obs_wave
               = length (flat_opacity [] []
                           (map (fun w => w / (1 + 0)) obs_wave))).
  { unfold flat_opacity. now rewrite !length_map. }
  rewrite !(dark_flux_vanishes _ _ _ _ _ _ Hk). cbn [bind].
  rewrite vadd_zeros, H. cbn [bind].
  eexists. split; [reflexivity|]. split; reflexivity.
Qed.

Lemma one_detection_likelihood :
  likelihood_of_flux clipped_erf (map (fun _ => 0) [10]) [0] [1] [false]
  = Ok (Finite (gaussian_loglike [0] [0] [1] [false])).
Proof. apply (likelihood_decomposition clipped_erf [0] [0] [1] [false]). repeat split. Qed.

Lemma eight_detections_likelihood :
  likelihood_of_flux clipped_erf (map (fun _ => 0) [1; 2; 3; 4; 5; 6; 7; 8])
    [0; 0; 0; 0; 0; 0; 0; 0] [1; 1; 1; 1; 1; 1; 1; 1]
    [false; false; false; false; false; false; false; false]
  = Ok (Finite (gaussian_loglike [0; 0; 0; 0; 0; 0; 0; 0]
                  [0; 0; 0; 0; 0; 0; 0; 0] [1; 1; 1; 1; 1; 1; 1; 1]
                  [false; false; false; false; false; false; false; false])).
Proof.
  apply (likelihood_decomposition clipped_erf [0; 0; 0; 0; 0; 0; 0; 0]
           [0; 0; 0; 0; 0; 0; 0; 0] [1; 1; 1; 1; 1; 1; 1; 1]
           [false; false; false; false; false; false; false; false]).
  repeat split.
Qed.

Lemma saturated_limit_likelihood :
  likelihood_of_flux clipped_erf (map (fun _ => 0) [10]) [10] [1] [true]
  = Ok NegInf.
Proof.
  cbn [map].
  rewrite (likelihood_decomposition clipped_erf [0] [10] [1] [true])
    by (repeat split).
  f_equal. apply (limits_loglike_zero_prob clipped_erf 0 [0] [10] [1] [true]
                    _ 0 10 1); try reflexivity.
  unfold limit_prob. rewrite clipped_erf_low by exact ten_sigma_below. lra.
Qed.

Lemma criteria_of_finite_likelihoods_witness :
  let l := gaussian_loglike [0] [0] [1] [false] in
  exists c : comparison,
    compare_models dark_body unit_distance no_coefficients flat_opacity
      no_filter_flux clipped_erf [10] [0] [1] [false] 0 summary_1 summary_2
      "carbon" "carbon" (1 / 10) None None = Ok c /\
    delta_aic c = XFinite (2 * (l - l) - 4) /\
    delta_bic c = XFinite (2 * (l - l) - 2 * ln (INR 1)) /\
    (xpositive (delta_aic c) = true <-> 2 < l - l) /\
    (xpositive (delta_bic c) = true <-> ln (INR 1) < l - l).
Proof.
  intros l.
  destruct (dark_comparison [10] [0] [1] [false] _ one_detection_likelihood)
    as (c & Hc & H1 & H2).
  exists c. split; [exact Hc|].
  apply (criteria_of_finite_likelihoods dark_body unit_distance no_coefficients
           flat_opacity no_filter_flux clipped_erf [10] [0] [1] [false] 0
           summary_1 summary_2 "carbon" "carbon" (1 / 10) None None c l l
           Hc H1 H2).
  simpl. lia.
Defined.

Lemma no_message_iff_witness :
  let l := gaussian_loglike [0] [0] [1] [false] in
  exists c : comparison,
    compare_models dark_body unit_distance no_coefficients flat_opacity
      no_filter_flux clipped_erf [10] [0] [1] [false] 0 summary_1 summary_2
      "carbon" "carbon" (1 / 10) None None = Ok c /\
    (printed c = None <-> ln (INR 1) < l - l <= 2).
Proof.
  intros l.
  destruct (dark_comparison [10] [0] [1] [false] _ one_detection_likelihood)
    as (c & Hc & H1 & H2).
  exists c. split; [exact Hc|].
  apply (no_message_iff dark_body unit_distance no_coefficients
           flat_opacity no_filter_flux clipped_erf [10] [0] [1] [false] 0
           summary_1 summary_2 "carbon" "carbon" (1 / 10) None None c l l
           Hc H1 H2).
  simpl. lia.
Defined.

Lemma message_with_eight_points_witness :
  exists c : comparison,
    compare_models dark_body unit_distance no_coefficients flat_opacity
      no_filter_flux clipped_erf [1; 2; 3; 4; 5; 6; 7; 8]
      [0; 0; 0; 0; 0; 0; 0; 0] [1; 1; 1; 1; 1; 1; 1; 1]
      [false; false; false; false; false; false; false; false] 0
      summary_1 summary_2 "carbon" "carbon" (1 / 10) None None = Ok c /\
    exists m : message, printed c = Some m.
Proof.
  destruct (dark_comparison _ _ _ _ _ eight_detections_likelihood)
    as (c & Hc & H1 & H2).
  exists c. split; [exact Hc|].
  apply (message_with_eight_points dark_body unit_distance no_coefficients
           flat_opacity no_filter_flux clipped_erf _ _ _ _ 0
           summary_1 summary_2 "carbon" "carbon" (1 / 10) None None c _ _
           Hc H1 H2).
  simpl. lia.
Defined.

Lemma criteria_of_infinite_likelihoods_witness :
  exists c : comparison,
    compare_models dark_body unit_distance no_coefficients flat_opacity
      no_filter_flux clipped_erf [10] [10] [1] [true] 0 summary_1 summary_2
      "carbon" "carbon" (1 / 10) None None = Ok c /\
    delta_aic c = XNaN /\ delta_bic c = XNaN /\ printed c = None.
Proof.
  destruct (dark_comparison [10] [10] [1] [true] _ saturated_limit_likelihood)
    as (c & Hc & H1 & H2).
  exists c. split; [exact Hc|].
  apply (proj2 (proj2
    (criteria_of_infinite_likelihoods dark_body unit_distance no_coefficients
       flat_opacity no_filter_flux clipped_erf [10] [10] [1] [true] 0
       summary_1 summary_2 "carbon" "carbon" (1 / 10) None None c
       Hc ltac:(simpl; lia)))); assumption.
Defined.

(* ================================================================== *)
(** * Units, array lengths and the burn-in                             *)
(* ================================================================== *)

Lemma per_wavelength_round_trip (z d : R) :
  1 + z <> 0 ->
  forall rest_wave per_nu : list R,
    Forall (fun w => w <> 0) rest_wave ->
    map2 lambda_to_nu (map (fun w => w * (1 + z)) rest_wave)
      (map (fun l => l / (4 * PI * d ^ 2) / (1 + z))
         (map2 nu_to_lambda rest_wave per_nu))
    = map (fun l => l / (4 * PI * d ^ 2) * (1 + z)) per_nu
      \/ length rest_wave <> length per_nu.
Proof.
  intros Hz. induction rest_wave as [|w ws IH]; intros [|l ls] Hw;
    try (right; discriminate); [left; reflexivity|].
  inversion Hw as [|? ? Hw0 Hws]; subst.
  destruct (IH ls Hws) as [E | E]; [left | right; simpl; lia].
  unfold map2 in *. cbn [map combine fst snd]. rewrite E. f_equal.
  unfold lambda_to_nu, nu_to_lambda, c_AA_s, AA_per_micron.
  destruct (Req_dec d 0) as [-> | Hd].
  - replace (4 * PI * 0 ^ 2) with 0 by ring. unfold Rdiv.
    rewrite Rinv_0. ring.
  - assert (Hpi := PI_RGT_0). field. repeat split; lra.
Qed.

Section UnitsAndLengths.

Variable BlackBody : R -> R -> R.
Variable sp_erf : R -> R.

(** X6: the flux in Jy does not depend on the unit in which the
    luminosity is computed: per unit wavelength and per unit frequency give
    the same flux, at non-zero rest wavelengths and for 1 + z non-zero; the
    two directions of the (1+z) factor agree with each other. *)
Theorem flux_independent_of_luminosity_unit
    (rest_wave kappa_interp : list R) (dust_mass temperature d z : R) :
  1 + z <> 0 ->
  Forall (fun w => w <> 0) rest_wave ->
  (q <- calc_luminosity BlackBody rest_wave kappa_interp dust_mass temperature
          "lambda" ;;
   calc_flux rest_wave q d z "Jy")
  = (q <- calc_luminosity BlackBody rest_wave kappa_interp dust_mass
            temperature "nu" ;;
     calc_flux rest_wave q d z "Jy").
Proof.
  intros Hz Hw. unfold calc_luminosity.
  destruct (length rest_wave =? length kappa_interp)%nat eqn:E; [|reflexivity].
  apply Nat.eqb_eq in E. cbn [negb]. simpl String.eqb. cbv iota. cbn [bind].
  rewrite calc_flux_per_Hz, calc_flux_per_AA. unfold to_output.
  simpl String.eqb. cbv iota. do 2 f_equal.
  match goal with
  | |- context [map2 nu_to_lambda rest_wave ?l] =>
      destruct (per_wavelength_round_trip z d Hz rest_wave l Hw) as [H | H]
  end; [exact H|].
  exfalso. apply H. rewrite length_map, map2_length; rewrite ?length_map; lia.
Qed.

Lemma mask_index_mismatch {A : Type} (a : list A) (mask : list bool) :
  length a <> length mask -> mask_index a mask = Raise IndexError.
Proof.
  revert mask. induction a as [|x a IH]; intros [|b mask] H; simpl in *;
    try reflexivity; try lia.
  rewrite IH by lia. reflexivity.
Qed.

(** X13: when the observation set has a detection and the observed
    fluxes, the model fluxes or the uncertainties are not as many as the
    flags, the likelihood raises [IndexError]. *)
Theorem likelihood_of_mismatched_arrays
    (flux_model obs_flux obs_flux_err : list R) (obs_limits : list bool) :
  np_any (map negb obs_limits) = true ->
  ~ well_formed flux_model obs_flux obs_flux_err obs_limits ->
  likelihood_of_flux sp_erf flux_model obs_flux obs_flux_err obs_limits
  = Raise IndexError.
Proof.
  intros Hd Hn. unfold likelihood_of_flux. rewrite Hd. unfold detection_block.
  destruct (Nat.eq_dec (length obs_flux) (length obs_limits)) as [Ho | Ho].
  - rewrite (mask_index_select obs_flux) by (rewrite length_map; exact Ho).
    cbn [bind].
    destruct (Nat.eq_dec (length flux_model) (length obs_limits)) as [Hm | Hm].
    + rewrite (mask_index_select flux_model) by (rewrite length_map; exact Hm).
      cbn [bind]. rewrite mask_index_mismatch; [reflexivity|].
      rewrite length_map. intros He. apply Hn. repeat split; assumption.
    + rewrite mask_index_mismatch by (rewrite length_map; exact Hm).
      reflexivity.
  - rewrite mask_index_mismatch by (rewrite length_map; exact Ho). reflexivity.
Qed.

End UnitsAndLengths.

Lemma flux_independent_of_luminosity_unit_witness :
  (q <- calc_luminosity (fun _ _ => 1) [10] [1] 1 100 "lambda" ;;
   calc_flux [10] q 1 1 "Jy")
  = (q <- calc_luminosity (fun _ _ => 1) [10] [1] 1 100 "nu" ;;
     calc_flux [10] q 1 1 "Jy").
Proof.
  apply (flux_independent_of_luminosity_unit (fun _ _ => 1) [10] [1] 1 100 1 1).
  - lra.
  - repeat constructor. lra.
Defined.

Lemma likelihood_of_mismatched_arrays_witness :
  likelihood_of_flux clipped_erf [0; 0] [1; 2] [1] [false; true]
  = Raise IndexError.
Proof.
  apply (likelihood_of_mismatched_arrays clipped_erf [0; 0] [1; 2] [1]
           [false; true]).
  - reflexivity.
  - intros (_ & _ & H). discriminate.
Defined.
